(** * rosbag: a shallow embedding of the bag writer, reader and merge view

    The development follows [src/src/rosbag.cpp] and
    [src/include/rosbag/rosbag.h].  C++ [std::string] is [string], a raw byte
    buffer or a file is a [list ascii], [std::map<std::string, V>] is
    [gmap string V] (iterated in key order, see [map_items]), fixed-width
    integers are [Z] with their wrap-around written out, and member functions
    of [Bag] are functions that take the object and return the new one. *)

From Stdlib Require Import ZArith Ascii String List Lia Bool Sorting.Sorted.
From stdpp Require Import base option list gmap strings sorting.

Local Open Scope Z_scope.

(** ** Bytes and little-endian integers *)

(** [memcpy(dst, &x, n)] of an unsigned integer on a little-endian machine. *)
Fixpoint le_bytes (n : nat) (x : Z) : list ascii :=
  match n with
  | O => []
  | S n' => ascii_of_N (Z.to_N (x mod 256)) :: le_bytes n' (x / 256)
  end.

(** [memcpy(&x, src, n)]: the unsigned value held by [n] bytes. *)
Fixpoint le_value (bs : list ascii) : Z :=
  match bs with
  | [] => 0
  | b :: bs' => Z.of_N (N_of_ascii b) + 256 * le_value bs'
  end.

(** Copying [got] over the first bytes of a destination that held [old]:
    what an unformatted read leaves in its buffer when it delivers fewer
    bytes than asked for. *)
Definition store (old got : list ascii) : list ascii :=
  got ++ drop (length got) old.

(** [std::string((char* )&x, n)] *)
Definition string_of_uint (n : nat) (x : Z) : string :=
  string_of_list_ascii (le_bytes n x).

(** [memcpy(&x, str.data(), n)] where the caller has checked the size. *)
Definition uint_of_string (s : string) : Z :=
  le_value (list_ascii_of_string s).

Definition UINT_MAX : Z := 2 ^ 32 - 1.

Definition wrap32 (x : Z) : Z := x mod 2 ^ 32.
Definition wrap64 (x : Z) : Z := x mod 2 ^ 64.

(** ** Outcomes of a call

    A call returns, throws one of the exceptions declared in [rosbag.h],
    stops at a failed [assert], runs into undefined behaviour
    (dereferencing [begin()] of an empty vector, [top()] of an empty queue,
    overflowing a fixed [char] array), or never returns (a loop that does
    not end within the bound the model gives it). *)

Inductive Exception :=
  | BagNotOpenException
  | BagIOException
  | InvalidMsgPosException
  | InstantiateException.

Inductive outcome (A : Type) : Type :=
  | Ok (a : A)
  | Thrown (e : Exception)
  | AssertFailed
  | UndefinedBehaviour
  | Diverges.
Arguments Ok {A} a.
Arguments Thrown {A} e.
Arguments AssertFailed {A}.
Arguments UndefinedBehaviour {A}.
Arguments Diverges {A}.

#[global] Instance outcome_ret : MRet outcome := fun _ a => Ok a.
#[global] Instance outcome_bind : MBind outcome := fun _ _ f m =>
  match m with
  | Ok a => f a
  | Thrown e => Thrown e
  | AssertFailed => AssertFailed
  | UndefinedBehaviour => UndefinedBehaviour
  | Diverges => Diverges
  end.

(** [assert(c)] *)
Definition assert (c : bool) : outcome unit :=
  if c then Ok tt else AssertFailed.

Definition returns {A} (o : outcome A) : Prop := exists a, o = Ok a.

(** ** External collaborators

    [ros::Time], [ros::Message], [ros::Header] and [rosbag/constants.h] are
    included by the two source files but are not part of them. *)

(** Modelled from the spec: [ros::Time] ([ros/time.h] is missing), a
    timestamp of two unsigned 32-bit fields [sec] and [nsec], the pair the
    index stores as [sec(4 LE) | nsec(4 LE)]; [operator<] orders timestamps
    by [sec], then by [nsec]. *)
Record Time := mkTime { sec : Z; nsec : Z }.

Definition Time_lt (a b : Time) : bool :=
  (sec a <? sec b) || ((sec a =? sec b) && (nsec a <? nsec b)).

Definition Time_le (a b : Time) : bool := negb (Time_lt b a).

(** Modelled from the spec: [ros::Message] ([ros/message.h] is missing), the
    type registry's view of one message: definition, datatype and
    fingerprint strings, the serialized bytes, and the optional connection
    header. *)
Record Message := mkMessage {
  __getMessageDefinition : string;
  __getDataType : string;
  __getMD5Sum : string;
  serialized : list ascii;
  __connection_header : option (gmap string string)
}.

(** [uint32_t serializationLength()] *)
Definition serializationLength (msg : Message) : Z :=
  wrap32 (Z.of_nat (length (serialized msg))).

(** Modelled from the spec: the constants of [rosbag/constants.h], which is
    missing.  Field names are those of the spec's table of header fields, the
    version is the spec's "1.2"; the opcodes are "implementation-chosen but
    must match between writer and reader", so only their being distinct
    matters. *)
Definition VERSION : string := "1.2".
Definition FIELD_DELIM : ascii := "="%char.
Definition OP_FIELD_NAME : string := "op".
Definition TOPIC_FIELD_NAME : string := "topic".
Definition MD5_FIELD_NAME : string := "md5".
Definition TYPE_FIELD_NAME : string := "type".
Definition DEF_FIELD_NAME : string := "def".
Definition SEC_FIELD_NAME : string := "sec".
Definition NSEC_FIELD_NAME : string := "nsec".
Definition LATCHING_FIELD_NAME : string := "latching".
Definition CALLERID_FIELD_NAME : string := "callerid".
Definition INDEX_POS_FIELD_NAME : string := "index_pos".
Definition VER_FIELD_NAME : string := "ver".
Definition COUNT_FIELD_NAME : string := "count".
Definition OP_MSG_DEF : Z := 1.
Definition OP_MSG_DATA : Z := 2.
Definition OP_FILE_HEADER : Z := 3.
Definition OP_INDEX_DATA : Z := 4.
Definition FILE_HEADER_LENGTH : Z := 4096.
Definition INDEX_VERSION : Z := 0.

(** [ros::M_string] *)
Abbreviation M_string := (gmap string string).

(** Iteration over a [std::map]: the entries in increasing key order. *)
Definition key_le {V} (a b : string * V) : Prop := String.le a.1 b.1.

Definition map_items {V} (m : gmap string V) : list (string * V) :=
  merge_sort key_le (map_to_list m).

(** Modelled from the spec: the header codec [ros::Header] ([ros/header.h]
    is missing).  "Encodes an ordered list of (name, value_bytes) fields to a
    single buffer: concatenation of per-field blocks where each block is
    name | '=' | value_len(4 LE) | value_bytes." *)
Definition encode_field (kv : string * string) : list ascii :=
  list_ascii_of_string kv.1 ++ FIELD_DELIM ::
  le_bytes 4 (Z.of_nat (String.length kv.2)) ++ list_ascii_of_string kv.2.

Definition encode_fields (l : list (string * string)) : list ascii :=
  concat (map encode_field l).

(** [ros::Header::write(fields, buffer, size)]: the buffer and its
    [uint32_t] size. *)
Definition Header_write (fields : M_string) : list ascii * Z :=
  let buf := encode_fields (map_items fields) in
  (buf, wrap32 (Z.of_nat (length buf))).

(** Modelled from the spec: "Decoding reverses this and returns a mapping
    name -> bytes. [...] Failure kinds: Truncated, BadLength (declared value
    length exceeds remaining buffer)." *)
Inductive parse_result :=
  | Parsed (fields : M_string)
  | Truncated
  | BadLength.

(** The bytes before the first ['='] and the bytes after it. *)
Fixpoint split_name (bs : list ascii) : option (list ascii * list ascii) :=
  match bs with
  | [] => None
  | b :: bs' =>
      if Ascii.eqb b FIELD_DELIM then Some ([], bs')
      else match split_name bs' with
           | Some (name, rest) => Some (b :: name, rest)
           | None => None
           end
  end.

Fixpoint parse_fields (fuel : nat) (bs : list ascii) (acc : M_string) : parse_result :=
  match bs with
  | [] => Parsed acc
  | _ :: _ =>
      match fuel with
      | O => Truncated
      | S fuel' =>
          match split_name bs with
          | None => Truncated
          | Some (name, rest) =>
              if (length rest <? 4)%nat then Truncated
              else
                let value_len := Z.to_nat (le_value (take 4 rest)) in
                let rest' := drop 4 rest in
                if (length rest' <? value_len)%nat then BadLength
                else parse_fields fuel' (drop value_len rest')
                       (<[string_of_list_ascii name :=
                            string_of_list_ascii (take value_len rest')]> acc)
          end
      end
  end.

(** [ros::Header::parse(buffer, size, error_msg)].  Every field takes at
    least five bytes, so [length buffer] rounds are enough. *)
Definition Header_parse (buffer : list ascii) : parse_result :=
  parse_fields (length buffer) buffer ∅.

(** ** File streams

    [std::ofstream] and [std::ifstream] over a file system.  Only what the
    bag uses is modelled: open, unformatted read and write, seek, the state
    bits.  A stream that is not good ignores reads and writes. *)

Record FileSystem := mkFS {
  fs_files : gmap string (list ascii);
  (** paths that cannot be created or truncated *)
  fs_denied : gset string;
  (** the largest file the device still accepts, when it is bounded *)
  fs_limit : option nat
}.

Record ofstream := mkOfstream {
  w_open : bool;
  w_name : string;
  w_data : list ascii;
  w_pos : nat;
  w_fail : bool;
  w_limit : option nat
}.

Definition ofstream_init : ofstream :=
  mkOfstream false "" [] 0 false None.

Definition w_setfail (st : ofstream) : ofstream :=
  mkOfstream (w_open st) (w_name st) (w_data st) (w_pos st) true (w_limit st).

(** [write_stream_.open(name, out | binary)]: fails on a stream that is
    already open; otherwise creates or truncates the file. *)
Definition ofstream_open (name : string) (st : ofstream) (fs : FileSystem)
  : ofstream * FileSystem :=
  if w_open st then (w_setfail st, fs)
  else if bool_decide (name ∈ fs_denied fs) then (w_setfail st, fs)
  else (mkOfstream true name [] 0 false (fs_limit fs),
        mkFS (<[name := []]> (fs_files fs)) (fs_denied fs) (fs_limit fs)).

(** Bytes [bs] put at offset [pos] of a file holding [data]; a gap left by
    a seek past the end reads as zero bytes. *)
Definition overwrite (data : list ascii) (pos : nat) (bs : list ascii) : list ascii :=
  resize pos zero data ++ bs ++ drop (pos + length bs) data.

(** [write_stream_.write(s, n)]: the bytes the device accepts are written;
    when it accepts fewer than [n] the stream goes bad. *)
Definition ofstream_write (bs : list ascii) (st : ofstream) : ofstream :=
  if negb (w_open st) || w_fail st then w_setfail st
  else
    let room := match w_limit st with
                | None => length bs
                | Some lim => (length bs `min` (lim - w_pos st))%nat
                end in
    mkOfstream true (w_name st) (overwrite (w_data st) (w_pos st) (take room bs))
      (w_pos st + room)%nat (room <? length bs)%nat (w_limit st).

(** [write_stream_.seekp(pos, beg)], [pos] an unsigned 64-bit offset that
    the stream takes as a signed one. *)
Definition ofstream_seekp (pos : Z) (st : ofstream) : ofstream :=
  if w_fail st then st
  else if negb (w_open st) || (2 ^ 63 <=? pos) then w_setfail st
  else mkOfstream true (w_name st) (w_data st) (Z.to_nat pos) false (w_limit st).

(** [write_stream_.close()]: the file now holds what was written. *)
Definition ofstream_close (st : ofstream) (fs : FileSystem) : ofstream * FileSystem :=
  if w_open st then
    (mkOfstream false (w_name st) [] 0 (w_fail st) (w_limit st),
     mkFS (<[w_name st := w_data st]> (fs_files fs)) (fs_denied fs) (fs_limit fs))
  else (w_setfail st, fs).

Record ifstream := mkIfstream {
  r_file : option (list ascii);
  r_pos : nat;
  r_eof : bool;
  r_fail : bool
}.

Definition ifstream_init : ifstream := mkIfstream None 0 false false.

Definition r_good (st : ifstream) : bool := negb (r_eof st || r_fail st).

Definition r_setfail (st : ifstream) : ifstream :=
  mkIfstream (r_file st) (r_pos st) (r_eof st) true.

(** [read_stream_.open(name, in | binary)] *)
Definition ifstream_open (name : string) (st : ifstream) (fs : FileSystem) : ifstream :=
  match r_file st with
  | Some _ => r_setfail st
  | None =>
      match fs_files fs !! name with
      | Some data => mkIfstream (Some data) 0 false false
      | None => r_setfail st
      end
  end.

(** The bytes from the get position to the end of the file. *)
Definition r_rest (st : ifstream) : list ascii :=
  match r_file st with
  | Some data => drop (r_pos st) data
  | None => []
  end.

(** [read_stream_.read(dst, n)]: the bytes delivered and the new stream.  A
    stream that is not good delivers nothing and sets failbit; a read that
    reaches the end of the file delivers what is left and sets eofbit and
    failbit. *)
Definition ifstream_read (n : nat) (st : ifstream) : list ascii * ifstream :=
  if negb (r_good st) then ([], r_setfail st)
  else
    let rest := r_rest st in
    if (n <=? length rest)%nat then
      (take n rest, mkIfstream (r_file st) (r_pos st + n) false false)
    else
      (rest, mkIfstream (r_file st) (r_pos st + length rest) true true).

(** [read_stream_.seekg(pos, beg)]: ignored by a failed stream. *)
Definition ifstream_seekg (pos : Z) (st : ifstream) : ifstream :=
  if r_fail st then st
  else match r_file st with
       | None => r_setfail st
       | Some _ =>
           if 2 ^ 63 <=? pos then r_setfail st
           else mkIfstream (r_file st) (Z.to_nat pos) (r_eof st) false
       end.

(** [read_stream_.seekg(off, cur)] with an unsigned 32-bit offset. *)
Definition ifstream_seekg_cur (off : Z) (st : ifstream) : ifstream :=
  if r_fail st then st
  else match r_file st with
       | None => r_setfail st
       | Some _ => mkIfstream (r_file st) (r_pos st + Z.to_nat off) (r_eof st) false
       end.

(** [read_stream_.clear()] *)
Definition ifstream_clear (st : ifstream) : ifstream :=
  mkIfstream (r_file st) (r_pos st) false false.

Definition newline : ascii := "010"%char.

(** The characters before the first newline, and whether one was found. *)
Fixpoint until_newline (bs : list ascii) : list ascii * bool :=
  match bs with
  | [] => ([], false)
  | b :: bs' =>
      if Ascii.eqb b newline then ([], true)
      else let '(line, found) := until_newline bs' in (b :: line, found)
  end.

(** [getline(read_stream_, line)]: the newline is extracted and dropped;
    reaching the end sets eofbit, extracting nothing sets failbit. *)
Definition ifstream_getline (st : ifstream) : string * ifstream :=
  if negb (r_good st) then (EmptyString, r_setfail st)
  else
    let '(line, found) := until_newline (r_rest st) in
    if found then
      (string_of_list_ascii line,
       mkIfstream (r_file st) (r_pos st + length line + 1) false false)
    else
      (string_of_list_ascii line,
       mkIfstream (r_file st) (r_pos st + length line) true
         (bool_decide (line = []))).

(** ** The bag *)

(** [struct MsgInfo] *)
Record MsgInfo := mkMsgInfo {
  topic : string;
  msg_def : string;
  md5sum : string;
  datatype : string
}.

(** [struct IndexEntry] *)
Record IndexEntry := mkIndexEntry {
  time : Time;
  pos : Z
}.

#[global] Instance MsgInfo_inhabited : Inhabited MsgInfo :=
  populate (mkMsgInfo "" "" "" "").

(** [namespace bagmode] *)
Definition Read : Z := 1.
Definition Write : Z := 2.
Definition Append : Z := 4.

(** Values the constructor and the functions leave indeterminate: members
    [Bag()] does not initialise, automatic variables that are read after a
    read from the stream stored nothing in them, and the bytes of freshly
    allocated storage.  They are inputs of the model. *)
Record Uninit := mkUninit {
  u_mode : Z;
  u_record_pos : Z;
  u_version : Z;
  u_version_major : Z;
  u_version_minor : Z;
  u_local : Z;
  u_heap : ascii
}.

(** [class Bag].  The reusable buffers are kept by content: [header_buf_]
    has [header_buf_len_] bytes, [message_buf_] has [message_buf_size_]
    bytes.  Wall-clock times are in nanoseconds. *)
Record Bag := mkBag {
  mode_ : Z;
  file_name_ : string;
  read_stream_ : ifstream;
  write_stream_ : ofstream;
  record_pos_ : Z;
  file_header_pos_ : Z;
  index_data_pos_ : Z;
  topics_recorded_ : gmap string MsgInfo;
  topic_indexes_ : gmap string (list IndexEntry);
  header_buf_ : list ascii;
  message_buf_ : list ascii;
  message_buf_len_ : Z;
  writing_enabled_ : bool;
  check_disk_next_ : Z;
  warn_next_ : Z;
  version_ : Z;
  version_major_ : Z;
  version_minor_ : Z;
  uninit_ : Uninit
}.

Definition set_mode (v : Z) (s : Bag) : Bag :=
  mkBag v (file_name_ s) (read_stream_ s) (write_stream_ s) (record_pos_ s) (file_header_pos_ s) (index_data_pos_ s) (topics_recorded_ s) (topic_indexes_ s) (header_buf_ s) (message_buf_ s) (message_buf_len_ s) (writing_enabled_ s) (check_disk_next_ s) (warn_next_ s) (version_ s) (version_major_ s) (version_minor_ s) (uninit_ s).
Definition set_file_name (v : string) (s : Bag) : Bag :=
  mkBag (mode_ s) v (read_stream_ s) (write_stream_ s) (record_pos_ s) (file_header_pos_ s) (index_data_pos_ s) (topics_recorded_ s) (topic_indexes_ s) (header_buf_ s) (message_buf_ s) (message_buf_len_ s) (writing_enabled_ s) (check_disk_next_ s) (warn_next_ s) (version_ s) (version_major_ s) (version_minor_ s) (uninit_ s).
Definition set_read_stream (v : ifstream) (s : Bag) : Bag :=
  mkBag (mode_ s) (file_name_ s) v (write_stream_ s) (record_pos_ s) (file_header_pos_ s) (index_data_pos_ s) (topics_recorded_ s) (topic_indexes_ s) (header_buf_ s) (message_buf_ s) (message_buf_len_ s) (writing_enabled_ s) (check_disk_next_ s) (warn_next_ s) (version_ s) (version_major_ s) (version_minor_ s) (uninit_ s).
Definition set_write_stream (v : ofstream) (s : Bag) : Bag :=
  mkBag (mode_ s) (file_name_ s) (read_stream_ s) v (record_pos_ s) (file_header_pos_ s) (index_data_pos_ s) (topics_recorded_ s) (topic_indexes_ s) (header_buf_ s) (message_buf_ s) (message_buf_len_ s) (writing_enabled_ s) (check_disk_next_ s) (warn_next_ s) (version_ s) (version_major_ s) (version_minor_ s) (uninit_ s).
Definition set_record_pos (v : Z) (s : Bag) : Bag :=
  mkBag (mode_ s) (file_name_ s) (read_stream_ s) (write_stream_ s) v (file_header_pos_ s) (index_data_pos_ s) (topics_recorded_ s) (topic_indexes_ s) (header_buf_ s) (message_buf_ s) (message_buf_len_ s) (writing_enabled_ s) (check_disk_next_ s) (warn_next_ s) (version_ s) (version_major_ s) (version_minor_ s) (uninit_ s).
Definition set_file_header_pos (v : Z) (s : Bag) : Bag :=
  mkBag (mode_ s) (file_name_ s) (read_stream_ s) (write_stream_ s) (record_pos_ s) v (index_data_pos_ s) (topics_recorded_ s) (topic_indexes_ s) (header_buf_ s) (message_buf_ s) (message_buf_len_ s) (writing_enabled_ s) (check_disk_next_ s) (warn_next_ s) (version_ s) (version_major_ s) (version_minor_ s) (uninit_ s).
Definition set_index_data_pos (v : Z) (s : Bag) : Bag :=
  mkBag (mode_ s) (file_name_ s) (read_stream_ s) (write_stream_ s) (record_pos_ s) (file_header_pos_ s) v (topics_recorded_ s) (topic_indexes_ s) (header_buf_ s) (message_buf_ s) (message_buf_len_ s) (writing_enabled_ s) (check_disk_next_ s) (warn_next_ s) (version_ s) (version_major_ s) (version_minor_ s) (uninit_ s).
Definition set_topics_recorded (v : gmap string MsgInfo) (s : Bag) : Bag :=
  mkBag (mode_ s) (file_name_ s) (read_stream_ s) (write_stream_ s) (record_pos_ s) (file_header_pos_ s) (index_data_pos_ s) v (topic_indexes_ s) (header_buf_ s) (message_buf_ s) (message_buf_len_ s) (writing_enabled_ s) (check_disk_next_ s) (warn_next_ s) (version_ s) (version_major_ s) (version_minor_ s) (uninit_ s).
Definition set_topic_indexes (v : gmap string (list IndexEntry)) (s : Bag) : Bag :=
  mkBag (mode_ s) (file_name_ s) (read_stream_ s) (write_stream_ s) (record_pos_ s) (file_header_pos_ s) (index_data_pos_ s) (topics_recorded_ s) v (header_buf_ s) (message_buf_ s) (message_buf_len_ s) (writing_enabled_ s) (check_disk_next_ s) (warn_next_ s) (version_ s) (version_major_ s) (version_minor_ s) (uninit_ s).
Definition set_header_buf (v : list ascii) (s : Bag) : Bag :=
  mkBag (mode_ s) (file_name_ s) (read_stream_ s) (write_stream_ s) (record_pos_ s) (file_header_pos_ s) (index_data_pos_ s) (topics_recorded_ s) (topic_indexes_ s) v (message_buf_ s) (message_buf_len_ s) (writing_enabled_ s) (check_disk_next_ s) (warn_next_ s) (version_ s) (version_major_ s) (version_minor_ s) (uninit_ s).
Definition set_message_buf (v : list ascii) (s : Bag) : Bag :=
  mkBag (mode_ s) (file_name_ s) (read_stream_ s) (write_stream_ s) (record_pos_ s) (file_header_pos_ s) (index_data_pos_ s) (topics_recorded_ s) (topic_indexes_ s) (header_buf_ s) v (message_buf_len_ s) (writing_enabled_ s) (check_disk_next_ s) (warn_next_ s) (version_ s) (version_major_ s) (version_minor_ s) (uninit_ s).
Definition set_message_buf_len (v : Z) (s : Bag) : Bag :=
  mkBag (mode_ s) (file_name_ s) (read_stream_ s) (write_stream_ s) (record_pos_ s) (file_header_pos_ s) (index_data_pos_ s) (topics_recorded_ s) (topic_indexes_ s) (header_buf_ s) (message_buf_ s) v (writing_enabled_ s) (check_disk_next_ s) (warn_next_ s) (version_ s) (version_major_ s) (version_minor_ s) (uninit_ s).
Definition set_writing_enabled (v : bool) (s : Bag) : Bag :=
  mkBag (mode_ s) (file_name_ s) (read_stream_ s) (write_stream_ s) (record_pos_ s) (file_header_pos_ s) (index_data_pos_ s) (topics_recorded_ s) (topic_indexes_ s) (header_buf_ s) (message_buf_ s) (message_buf_len_ s) v (check_disk_next_ s) (warn_next_ s) (version_ s) (version_major_ s) (version_minor_ s) (uninit_ s).
Definition set_check_disk_next (v : Z) (s : Bag) : Bag :=
  mkBag (mode_ s) (file_name_ s) (read_stream_ s) (write_stream_ s) (record_pos_ s) (file_header_pos_ s) (index_data_pos_ s) (topics_recorded_ s) (topic_indexes_ s) (header_buf_ s) (message_buf_ s) (message_buf_len_ s) (writing_enabled_ s) v (warn_next_ s) (version_ s) (version_major_ s) (version_minor_ s) (uninit_ s).
Definition set_warn_next (v : Z) (s : Bag) : Bag :=
  mkBag (mode_ s) (file_name_ s) (read_stream_ s) (write_stream_ s) (record_pos_ s) (file_header_pos_ s) (index_data_pos_ s) (topics_recorded_ s) (topic_indexes_ s) (header_buf_ s) (message_buf_ s) (message_buf_len_ s) (writing_enabled_ s) (check_disk_next_ s) v (version_ s) (version_major_ s) (version_minor_ s) (uninit_ s).
Definition set_version (v : Z) (s : Bag) : Bag :=
  mkBag (mode_ s) (file_name_ s) (read_stream_ s) (write_stream_ s) (record_pos_ s) (file_header_pos_ s) (index_data_pos_ s) (topics_recorded_ s) (topic_indexes_ s) (header_buf_ s) (message_buf_ s) (message_buf_len_ s) (writing_enabled_ s) (check_disk_next_ s) (warn_next_ s) v (version_major_ s) (version_minor_ s) (uninit_ s).
Definition set_version_major (v : Z) (s : Bag) : Bag :=
  mkBag (mode_ s) (file_name_ s) (read_stream_ s) (write_stream_ s) (record_pos_ s) (file_header_pos_ s) (index_data_pos_ s) (topics_recorded_ s) (topic_indexes_ s) (header_buf_ s) (message_buf_ s) (message_buf_len_ s) (writing_enabled_ s) (check_disk_next_ s) (warn_next_ s) (version_ s) v (version_minor_ s) (uninit_ s).
Definition set_version_minor (v : Z) (s : Bag) : Bag :=
  mkBag (mode_ s) (file_name_ s) (read_stream_ s) (write_stream_ s) (record_pos_ s) (file_header_pos_ s) (index_data_pos_ s) (topics_recorded_ s) (topic_indexes_ s) (header_buf_ s) (message_buf_ s) (message_buf_len_ s) (writing_enabled_ s) (check_disk_next_ s) (warn_next_ s) (version_ s) (version_major_ s) v (uninit_ s).

(** [Bag::Bag()] *)
Definition Bag_new (u : Uninit) : Bag :=
  mkBag (u_mode u) "" ifstream_init ofstream_init
    (u_record_pos u) 0 0 ∅ ∅ [] [] 0 true 0 0
    (u_version u) (u_version_major u) (u_version_minor u) u.

Definition readMode (s : Bag) : bool := negb (Z.land (mode_ s) Read =? 0).
Definition writeMode (s : Bag) : bool := negb (Z.land (mode_ s) Write =? 0).
Definition appendMode (s : Bag) : bool := negb (Z.land (mode_ s) Append =? 0).

(** What a call learns from its environment: the wall clock and, when the
    disk is checked, the block size and free block count [statvfs] reports
    ([None] when [statvfs] fails). *)
Record Env := mkEnv {
  now : Z;
  statvfs : option (Z * Z)
}.

Definition seconds (x : Z) : Z := x * 1000000000.

(** ** Writer *)

(** [Bag::writefil(s, n)] *)
Definition writefil (bs : list ascii) (s : Bag) : Bag :=
  set_record_pos (wrap64 (record_pos_ s + Z.of_nat (length bs)))
    (set_write_stream (ofstream_write bs (write_stream_ s)) s).

(** [Bag::writefil(const std::string&)] *)
Definition writefil_string (str : string) (s : Bag) : Bag :=
  writefil (list_ascii_of_string str) s.

(** [Bag::seek] *)
Definition seek (p : Z) (s : Bag) : Bag :=
  set_record_pos p (set_write_stream (ofstream_seekp p (write_stream_ s)) s).

(** [Bag::writeHeader] *)
Definition writeHeader (fields : M_string) (data_len : Z) (s : Bag) : Bag :=
  let '(header_buffer, header_len) := Header_write fields in
  writefil (le_bytes 4 data_len)
    (writefil (take (Z.to_nat header_len) header_buffer)
       (writefil (le_bytes 4 header_len) s)).

(** [Bag::writeRecord] *)
Definition writeRecord (fields : M_string) (data : list ascii) (data_len : Z) (s : Bag) : Bag :=
  writefil (take (Z.to_nat data_len) data) (writeHeader fields data_len s).

(** [Bag::writeVersion] *)
Definition writeVersion (s : Bag) : Bag :=
  writefil_string ("#ROSRECORD V" +:+ VERSION +:+ String newline EmptyString) s.

(** [Bag::checkDisk], given what [statvfs] reported. *)
Definition checkDisk (stat : option (Z * Z)) (s : Bag) : bool * Bag :=
  match stat with
  | None => (true, s)
  | Some (f_bsize, f_bavail) =>
      let free_space := wrap64 (f_bsize * f_bavail) in
      if free_space <? 1073741824 then (false, set_writing_enabled false s)
      else if free_space <? 5368709120 then (true, s)
      else (true, set_writing_enabled true s)
  end.

(** [Bag::writeFileHeader] *)
Definition writeFileHeader (s : Bag) : Bag :=
  let s := set_file_header_pos (record_pos_ s) s in
  let header : M_string :=
    <[INDEX_POS_FIELD_NAME := string_of_uint 8 (index_data_pos_ s)]>
      (<[OP_FIELD_NAME := string_of_uint 1 OP_FILE_HEADER]> ∅) in
  let '(header_buffer, header_len) := Header_write header in
  let data_len :=
    if header_len <? FILE_HEADER_LENGTH then FILE_HEADER_LENGTH - header_len else 0 in
  let s := writefil (le_bytes 4 header_len) s in
  let s := writefil (take (Z.to_nat header_len) header_buffer) s in
  let s := writefil (le_bytes 4 data_len) s in
  if 0 <? data_len then
    writefil_string (string_of_list_ascii (repeat " "%char (Z.to_nat data_len))) s
  else s.

(** The loop [while (message_buf_size_ < len) message_buf_size_ *= 2] on an
    unsigned 32-bit size: [None] when the size wraps to zero, after which
    the loop never ends. *)
Fixpoint double_until (fuel : nat) (size len : Z) : option Z :=
  if len <=? size then Some size
  else match fuel with
       | O => None
       | S fuel' => double_until fuel' (wrap32 (size * 2)) len
       end.

(** The header of the definition record for [info]. *)
Definition def_header (topic_name : string) (info : MsgInfo) : M_string :=
  <[DEF_FIELD_NAME := msg_def info]>
    (<[TYPE_FIELD_NAME := datatype info]>
       (<[MD5_FIELD_NAME := md5sum info]>
          (<[TOPIC_FIELD_NAME := topic_name]>
             (<[OP_FIELD_NAME := string_of_uint 1 OP_MSG_DEF]> ∅)))).

(** The header of a data record. *)
Definition data_header (topic_name : string) (info : MsgInfo) (stamp : Time)
    (latching : bool) (callerid : string) : M_string :=
  let header : M_string :=
    <[NSEC_FIELD_NAME := string_of_uint 4 (nsec stamp)]>
      (<[SEC_FIELD_NAME := string_of_uint 4 (sec stamp)]>
         (<[TYPE_FIELD_NAME := datatype info]>
            (<[MD5_FIELD_NAME := md5sum info]>
               (<[TOPIC_FIELD_NAME := topic_name]>
                  (<[OP_FIELD_NAME := string_of_uint 1 OP_MSG_DATA]> ∅))))) in
  if latching then
    <[CALLERID_FIELD_NAME := callerid]> (<[LATCHING_FIELD_NAME := "1"]> header)
  else header.

(** [Bag::write], the block under [topics_recorded_mutex_]: whether the
    definition record must be written, and the bag with the topic known. *)
Definition write_admit (topic_name : string) (msg : Message) (s : Bag) : bool * Bag :=
  match topics_recorded_ s !! topic_name with
  | None =>
      (true,
       set_topic_indexes (<[topic_name := []]> (topic_indexes_ s))
         (set_topics_recorded
            (<[topic_name := mkMsgInfo topic_name (__getMessageDefinition msg)
                               (__getMD5Sum msg) (__getDataType msg)]>
               (topics_recorded_ s)) s))
  | Some _ => (false, s)
  end.

(** [Bag::write], the block under [check_disk_mutex_]. *)
Definition write_check_disk (env : Env) (s : Bag) : Bag :=
  if check_disk_next_ s <? now env then
    (checkDisk (statvfs env)
       (set_check_disk_next (check_disk_next_ s + seconds 20) s)).2
  else s.

(** [Bag::write], what the connection header says of latching ... *)
Definition latching_of (msg : Message) : bool :=
  match __connection_header msg ≫= (.!! "latching") with
  | Some v => negb (String.eqb v "0")
  | None => false
  end.

(** ... and of the caller. *)
Definition callerid_of (msg : Message) : string :=
  default "" (__connection_header msg ≫= (.!! "callerid")).

(** [Bag::write], growing [message_buf_] to hold [len] bytes: the new
    buffer, unless the doubling never ends. *)
Definition write_reserve (len : Z) (s : Bag) : option (list ascii) :=
  let size := Z.of_nat (length (message_buf_ s)) in
  size' ← (if size <? len then
             if size =? 0 then Some len else double_until 32 size len
           else Some size);
  Some (message_buf_ s ++
        repeat (u_heap (uninit_ s)) (Z.to_nat size' - length (message_buf_ s))).

(** [Bag::write], the block under [record_mutex_]: the index entry, the
    definition record when needed, then the data record.  A failed stream is
    logged ([ROS_FATAL]) and nothing else is done about it. *)
Definition write_emit (topic_name : string) (stamp : Time) (msg : Message)
    (needs_def_written : bool) (msg_info : MsgInfo) (s : Bag) : outcome Bag :=
  let index_entry := mkIndexEntry stamp (record_pos_ s) in
  let s :=
    set_topic_indexes
      (<[topic_name := (topic_indexes_ s !!! topic_name) ++ [index_entry]]>
         (topic_indexes_ s)) s in
  let s :=
    if needs_def_written then writeHeader (def_header topic_name msg_info) 0 s
    else s in
  match write_reserve (serializationLength msg) s with
  | None => Diverges
  | Some buf =>
      if (length buf <? length (serialized msg))%nat then UndefinedBehaviour
      else
        let s := set_message_buf (store buf (serialized msg)) s in
        Ok (writeRecord
              (data_header topic_name msg_info stamp (latching_of msg) (callerid_of msg))
              (message_buf_ s) (serializationLength msg) s)
  end.

(** [Bag::write(topic_name, time, msg)] *)
Definition write (env : Env) (topic_name : string) (stamp : Time) (msg : Message)
    (s : Bag) : outcome Bag :=
  if negb (writing_enabled_ s) then
    Ok (if warn_next_ s <? now env
        then set_warn_next (now env + seconds 5) s else s)
  else
    let '(needs_def_written, s) := write_admit topic_name msg s in
    let msg_info := topics_recorded_ s !!! topic_name in
    let s := write_check_disk env s in
    write_emit topic_name stamp msg needs_def_written msg_info s.

(** One round of the loop of [Bag::writeIndex]. *)
Definition writeIndex_topic (s : Bag) (item : string * list IndexEntry) : Bag :=
  let '(topic_name, topic_index) := item in
  let topic_index_size := wrap32 (Z.of_nat (length topic_index)) in
  let s :=
    match topics_recorded_ s !! topic_name with
    | Some _ => s
    | None => set_topics_recorded (<[topic_name := mkMsgInfo "" "" "" ""]> (topics_recorded_ s)) s
    end in
  let msg_info := topics_recorded_ s !!! topic_name in
  let header : M_string :=
    <[COUNT_FIELD_NAME := string_of_uint 4 topic_index_size]>
      (<[VER_FIELD_NAME := string_of_uint 4 INDEX_VERSION]>
         (<[TYPE_FIELD_NAME := datatype msg_info]>
            (<[TOPIC_FIELD_NAME := topic_name]>
               (<[OP_FIELD_NAME := string_of_uint 1 OP_INDEX_DATA]> ∅)))) in
  let data_len := wrap32 (topic_index_size * 16) in
  let s := writeHeader header data_len s in
  foldl (fun s index_entry =>
           writefil (le_bytes 8 (pos index_entry))
             (writefil (le_bytes 4 (nsec (time index_entry)))
                (writefil (le_bytes 4 (sec (time index_entry))) s)))
        s topic_index.

(** [Bag::writeIndex] *)
Definition writeIndex (s : Bag) : Bag :=
  let s := set_index_data_pos (record_pos_ s) s in
  let s := foldl writeIndex_topic s (map_items (topic_indexes_ s)) in
  writeFileHeader (seek (file_header_pos_ s) s).

(** [Bag::close] *)
Definition close (s : Bag) (fs : FileSystem) : Bag * FileSystem :=
  if negb (w_open (write_stream_ s)) then (s, fs)
  else
    let s := writeIndex s in
    let s := set_topic_indexes ∅ (set_topics_recorded ∅ s) in
    let '(ws, fs) := ofstream_close (write_stream_ s) fs in
    (set_write_stream ws s, fs).

(** ** Reader *)

(** [sscanf]: white space, [%d] and [%s].  [c_str] ends a line at its first
    NUL character. *)
Fixpoint c_str (bs : list ascii) : list ascii :=
  match bs with
  | [] => []
  | b :: bs' => if Ascii.eqb b zero then [] else b :: c_str bs'
  end.

Fixpoint skip_space (bs : list ascii) : list ascii :=
  match bs with
  | b :: bs' => if Ascii.is_space b then skip_space bs' else bs
  | [] => []
  end.

(** The longest prefix without white space, and what follows it. *)
Fixpoint scan_word (bs : list ascii) : list ascii * list ascii :=
  match bs with
  | [] => ([], [])
  | b :: bs' =>
      if Ascii.is_space b then ([], bs)
      else let '(w, rest) := scan_word bs' in (b :: w, rest)
  end.

(** The value of the longest prefix of decimal digits after [acc], whether
    a digit was seen, and what follows. *)
Fixpoint scan_digits (bs : list ascii) (acc : Z) (seen : bool) : Z * bool * list ascii :=
  match bs with
  | [] => (acc, seen, [])
  | b :: bs' =>
      match Ascii.is_nat b with
      | Some d => scan_digits bs' (10 * acc + Z.of_nat d) true
      | None => (acc, seen, bs)
      end
  end.

Definition INT_MIN : Z := - 2 ^ 31.
Definition INT_MAX : Z := 2 ^ 31 - 1.

(** [%d]: [None] on a matching failure; a value that does not fit [int] is
    undefined behaviour. *)
Definition scan_int (bs : list ascii) : outcome (option (Z * list ascii)) :=
  let bs := skip_space bs in
  let '(negative, bs) :=
    match bs with
    | "-"%char :: bs' => (true, bs')
    | "+"%char :: bs' => (false, bs')
    | _ => (false, bs)
    end in
  let '(v, seen, rest) := scan_digits bs 0 false in
  if negb seen then Ok None
  else
    let v := if negative then - v else v in
    if (INT_MIN <=? v) && (v <=? INT_MAX) then Ok (Some (v, rest))
    else UndefinedBehaviour.

(** A literal of the format: the input must start with it. *)
Fixpoint scan_literal (lit bs : list ascii) : option (list ascii) :=
  match lit, bs with
  | [], _ => Some bs
  | c :: lit', b :: bs' => if Ascii.eqb c b then scan_literal lit' bs' else None
  | _ :: _, [] => None
  end.

(** [sscanf(str, "%d.%d", &a, &b)]: the values assigned, each [None] when
    its conversion was not reached. *)
Definition sscanf_d_dot_d (bs : list ascii) : outcome (option Z * option Z) :=
  r ← scan_int bs;
  match r with
  | None => Ok (None, None)
  | Some (a, rest) =>
      match scan_literal ["."%char] rest with
      | None => Ok (Some a, None)
      | Some rest =>
          r ← scan_int rest;
          match r with
          | None => Ok (Some a, None)
          | Some (b, _) => Ok (Some a, Some b)
          end
      end
  end.

(** [sscanf(line, "#ROS%s V%d.%d", logtypename, &major, &minor)] with
    [char logtypename[100]]. *)
Definition sscanf_version (bs : list ascii) : outcome (option Z * option Z) :=
  match scan_literal (list_ascii_of_string "#ROS") bs with
  | None => Ok (None, None)
  | Some rest =>
      let '(word, rest) := scan_word (skip_space rest) in
      match word with
      | [] => Ok (None, None)
      | _ :: _ =>
          if (100 <=? length word)%nat then UndefinedBehaviour
          else
            match scan_literal ["V"%char] (skip_space rest) with
            | None => Ok (None, None)
            | Some rest => sscanf_d_dot_d rest
            end
      end
  end.

(** [Bag::readVersion] *)
Definition readVersion (s : Bag) : outcome (bool * Bag) :=
  let '(version_line, rs) := ifstream_getline (read_stream_ s) in
  let s := set_read_stream rs s in
  '(major, minor) ← sscanf_version (c_str (list_ascii_of_string version_line));
  let s := set_version_major (default (version_major_ s) major) s in
  let s := set_version_minor (default (version_minor_ s) minor) s in
  let s :=
    if (version_major_ s =? 0) &&
       Ascii.eqb (hd zero (list_ascii_of_string version_line)) "#"%char
    then set_version_major 1 s else s in
  let version := version_major_ s * 100 + version_minor_ s in
  if negb ((INT_MIN <=? version_major_ s * 100) && (version_major_ s * 100 <=? INT_MAX)
           && (INT_MIN <=? version) && (version <=? INT_MAX))
  then UndefinedBehaviour
  else
    let s := set_version version s in
    '(cur_major, cur_minor) ← sscanf_d_dot_d (c_str (list_ascii_of_string VERSION));
    let cur_version_major := default (u_local (uninit_ s)) cur_major in
    let cur_version_minor := default (u_local (uninit_ s)) cur_minor in
    if negb (version_major_ s =? cur_version_major) &&
       negb (version_minor_ s =? cur_version_minor)
    then AssertFailed
    else Ok (true, s).

(** [Bag::readHeader(header, next_msg_size)]: whether a header was read, its
    fields, the data length that follows it. *)
Definition readHeader (s : Bag) : bool * M_string * Z * Bag :=
  let junk := u_local (uninit_ s) in
  let '(got, rs) := ifstream_read 4 (read_stream_ s) in
  let header_len := le_value (store (le_bytes 4 junk) got) in
  let s := set_read_stream rs s in
  if r_eof rs then (false, ∅, junk, s)
  else
    let buf :=
      if (Z.of_nat (length (header_buf_ s)) <? header_len)
      then header_buf_ s ++
           repeat (u_heap (uninit_ s)) (Z.to_nat header_len - length (header_buf_ s))
      else header_buf_ s in
    let '(got, rs) := ifstream_read (Z.to_nat header_len) (read_stream_ s) in
    let s := set_header_buf (store buf got) (set_read_stream rs s) in
    if r_eof rs then (false, ∅, junk, s)
    else
      match Header_parse (take (Z.to_nat header_len) (header_buf_ s)) with
      | Parsed fields =>
          let '(got, rs) := ifstream_read 4 (read_stream_ s) in
          (true, fields, le_value (store (le_bytes 4 junk) got), set_read_stream rs s)
      | _ => (false, ∅, junk, s)
      end.

(** [Bag::checkField]: the value found, [None] for [fields.end()]. *)
Definition checkField (fields : M_string) (field : string) (min_len max_len : Z)
    (required : bool) : option string :=
  match fields !! field with
  | None => None
  | Some v =>
      if (Z.of_nat (String.length v) <? min_len) || (max_len <? Z.of_nat (String.length v))
      then None
      else Some v
  end.

(** [Bag::readFileHeader] *)
Definition readFileHeader (s : Bag) : outcome (bool * Bag) :=
  let '(_, fields, data_size, s) := readHeader s in
  match checkField fields OP_FIELD_NAME 1 1 true with
  | None => Ok (false, s)
  | Some v =>
      let op := uint_of_string v in
      _ ← assert (op =? OP_FILE_HEADER);
      match checkField fields INDEX_POS_FIELD_NAME 8 8 true with
      | None => Ok (false, s)
      | Some v =>
          let s := set_index_data_pos (uint_of_string v) s in
          Ok (true, set_read_stream (ifstream_seekg_cur data_size (read_stream_ s)) s)
      end
  end.

(** The loop of [Bag::readIndex] that reads [count] index entries; what a
    short read does not deliver stays as the variable held it. *)
Fixpoint read_entries (count : nat) (junk : Z) (rs : ifstream) : list IndexEntry * ifstream :=
  match count with
  | O => ([], rs)
  | S count' =>
      let '(got_sec, rs) := ifstream_read 4 rs in
      let '(got_nsec, rs) := ifstream_read 4 rs in
      let '(got_pos, rs) := ifstream_read 8 rs in
      let index_entry :=
        mkIndexEntry (mkTime (le_value (store (le_bytes 4 junk) got_sec))
                             (le_value (store (le_bytes 4 junk) got_nsec)))
                     (le_value (store (le_bytes 8 junk) got_pos)) in
      let '(entries, rs) := read_entries count' junk rs in
      (index_entry :: entries, rs)
  end.

(** The [do ... while (read_stream_.good())] loop of [Bag::readIndex]; the
    result is what the function returns when it leaves the loop by
    [return false], [None] when the loop ends. *)
Fixpoint readIndex_loop (fuel : nat) (s : Bag) : outcome (option bool * Bag) :=
  match fuel with
  | O => Diverges
  | S fuel' =>
      let '(ok, fields, data_size, s) := readHeader s in
      let continue (s : Bag) :=
        if r_good (read_stream_ s) then readIndex_loop fuel' s else Ok (None, s) in
      if negb ok then continue s
      else
        match checkField fields OP_FIELD_NAME 1 1 true with
        | None => Ok (Some false, s)
        | Some v =>
            _ ← assert (uint_of_string v =? OP_INDEX_DATA);
            match checkField fields VER_FIELD_NAME 4 4 true with
            | None => Ok (Some false, s)
            | Some v =>
                _ ← assert (uint_of_string v =? INDEX_VERSION);
                match checkField fields TOPIC_FIELD_NAME 1 UINT_MAX true with
                | None => Ok (Some false, s)
                | Some topic_name =>
                    match checkField fields TYPE_FIELD_NAME 1 UINT_MAX true with
                    | None => Ok (Some false, s)
                    | Some _ =>
                        match checkField fields COUNT_FIELD_NAME 4 4 true with
                        | None => Ok (Some false, s)
                        | Some v =>
                            let count := uint_of_string v in
                            _ ← assert (count * 16 =? data_size);
                            let '(entries, rs) :=
                              read_entries (Z.to_nat count) (u_local (uninit_ s))
                                (read_stream_ s) in
                            let s :=
                              set_topic_indexes
                                (<[topic_name :=
                                     (topic_indexes_ s !!! topic_name) ++ entries]>
                                   (topic_indexes_ s))
                                (set_read_stream rs s) in
                            continue s
                        end
                    end
                end
            end
        end
  end.

(** [Bag::readIndex].  A round that leaves the stream good has taken at
    least four bytes from it, so one round more than the file has bytes is
    enough. *)
Definition readIndex (s : Bag) : outcome (bool * Bag) :=
  let s := set_read_stream (ifstream_seekg (index_data_pos_ s) (read_stream_ s)) s in
  '(r, s) ← readIndex_loop (S (length (default [] (r_file (read_stream_ s))))) s;
  match r with
  | Some b => Ok (b, s)
  | None => Ok (true, set_read_stream (ifstream_clear (read_stream_ s)) s)
  end.

(** [Bag::readDef] *)
Definition readDef (p : Z) (s : Bag) : outcome (bool * Bag) :=
  let s := set_read_stream (ifstream_seekg p (read_stream_ s)) s in
  let '(ok, fields, data_size, s) := readHeader s in
  if negb ok then Ok (false, s)
  else
    match checkField fields OP_FIELD_NAME 1 1 true with
    | None => Ok (false, s)
    | Some v =>
        _ ← assert (uint_of_string v =? OP_MSG_DEF);
        match checkField fields TOPIC_FIELD_NAME 1 UINT_MAX true with
        | None => Ok (false, s)
        | Some topic_name =>
            match checkField fields MD5_FIELD_NAME 32 32 true with
            | None => Ok (false, s)
            | Some md5 =>
                match checkField fields TYPE_FIELD_NAME 1 UINT_MAX true with
                | None => Ok (false, s)
                | Some type =>
                    match checkField fields DEF_FIELD_NAME 0 UINT_MAX true with
                    | None => Ok (false, s)
                    | Some message_definition =>
                        match topics_recorded_ s !! topic_name with
                        | None =>
                            Ok (true,
                                set_topics_recorded
                                  (<[topic_name :=
                                       mkMsgInfo topic_name message_definition md5 type]>
                                     (topics_recorded_ s)) s)
                        | Some _ => Ok (true, s)
                        end
                    end
                end
            end
        end
    end.

(** One round of the loop of [Bag::readDefs]: [j = topic_index.begin()],
    then [readDef(j->pos)]; the result of [readDef] is not looked at. *)
Definition readDefs_topic (s : Bag) (item : string * list IndexEntry) : outcome Bag :=
  match item.2 with
  | [] => UndefinedBehaviour
  | j :: _ => '(_, s) ← readDef (pos j) s; Ok s
  end.

(** [Bag::readDefs] *)
Definition readDefs (s : Bag) : outcome (bool * Bag) :=
  s ← foldl (fun acc item => s ← acc; readDefs_topic s item) (Ok s)
        (map_items (topic_indexes_ s));
  Ok (true, s).

(** [Bag::open(file_name, mode)].  The results of the four bootstrap calls
    are not looked at; after [read_stream_.open] it is [write_stream_] whose
    state is tested. *)
Definition open (env : Env) (file_name : string) (mode : Z) (s : Bag) (fs : FileSystem)
    : outcome (bool * Bag * FileSystem) :=
  let s := set_file_name file_name (set_mode mode s) in
  _ ← assert (negb (readMode s && writeMode s));
  _ ← assert (negb (appendMode s));
  r ← (if writeMode s then
         let '(ws, fs) := ofstream_open file_name (write_stream_ s) fs in
         let s := set_write_stream ws s in
         if w_fail (write_stream_ s) then Ok (Some false, s, fs)
         else
           let s := set_check_disk_next (now env + seconds 20) s in
           let s := set_warn_next 0 s in
           let s := set_record_pos 0 s in
           let s := (checkDisk (statvfs env) s).2 in
           Ok (None, writeFileHeader (writeVersion s), fs)
       else Ok (None, s, fs));
  let '(early, s, fs) := r in
  match early with
  | Some b => Ok (b, s, fs)
  | None =>
      if readMode s then
        let s := set_read_stream (ifstream_open file_name (read_stream_ s) fs) s in
        if w_fail (write_stream_ s) then Ok (false, s, fs)
        else
          '(_, s) ← readVersion s;
          '(_, s) ← readFileHeader s;
          '(_, s) ← readIndex s;
          '(_, s) ← readDefs s;
          Ok (true, s, fs)
      else Ok (true, s, fs)
  end.

(** ** Message instances *)

(** What [instantiate<T>] needs of [T]: its fingerprint
    [ros::message_traits::MD5Sum<T>::value()].  The object it returns is
    given by what it is built from: the connection header, the serialized
    length and the bytes handed to [deserialize]. *)
Record Instance := mkInstance {
  i_connection_header : M_string;
  i_serialized_length : Z;
  i_buffer : list ascii
}.

(** The [do ... while (op == OP_MSG_DEF)] loop of [Bag::instantiate]:
    [None] when the function returns the null pointer from inside it. *)
Fixpoint instantiate_loop (fuel : nat) (s : Bag) : outcome (option (M_string * Z * Z) * Bag) :=
  match fuel with
  | O => Diverges
  | S fuel' =>
      let '(ok, fields, data_size, s) := readHeader s in
      if negb ok then Ok (None, s)
      else
        match checkField fields OP_FIELD_NAME 1 1 true with
        | None => Ok (None, s)
        | Some v =>
            let op := uint_of_string v in
            if op =? OP_MSG_DEF then instantiate_loop fuel' s
            else Ok (Some (fields, data_size, op), s)
        end
  end.

(** [Bag::instantiate<T>(pos)] *)
Definition Bag_instantiate (md5_T : string) (p : Z) (s : Bag) : outcome (option Instance * Bag) :=
  let s := set_read_stream (ifstream_seekg p (read_stream_ s)) s in
  '(r, s) ← instantiate_loop (S (length (default [] (r_file (read_stream_ s))))) s;
  match r with
  | None => Ok (None, s)
  | Some (fields, data_size, op) =>
      _ ← assert (op =? OP_MSG_DATA);
      match checkField fields TOPIC_FIELD_NAME 1 UINT_MAX true with
      | None => Ok (None, s)
      | Some topic_name =>
          match checkField fields MD5_FIELD_NAME 32 32 true with
          | None => Ok (None, s)
          | Some md5 =>
              _ ← assert (String.eqb md5_T md5 ||
                          Ascii.eqb (hd zero (list_ascii_of_string md5_T)) "*"%char);
              match checkField fields TYPE_FIELD_NAME 1 UINT_MAX true with
              | None => Ok (None, s)
              | Some type =>
                  let s := set_message_buf_len data_size s in
                  let s :=
                    if Z.of_nat (length (message_buf_ s)) <? message_buf_len_ s then
                      set_message_buf
                        (repeat (u_heap (uninit_ s))
                           (Z.to_nat (wrap32 (message_buf_len_ s * 2)))) s
                    else s in
                  if Z.of_nat (length (message_buf_ s)) <? message_buf_len_ s
                  then UndefinedBehaviour
                  else
                    let '(got, rs) :=
                      ifstream_read (Z.to_nat (message_buf_len_ s)) (read_stream_ s) in
                    let s := set_message_buf (store (message_buf_ s) got)
                               (set_read_stream rs s) in
                    let connection_header : M_string :=
                      <["message_definition" := ""]>
                        (<["type" := type]> (<["md5sum" := md5]> ∅)) in
                    Ok (Some (mkInstance connection_header (message_buf_len_ s)
                                (take (Z.to_nat (message_buf_len_ s)) (message_buf_ s))),
                        s)
              end
          end
      end
  end.

(** [class MessageInstance]: the [MsgInfo] and the [IndexEntry] it points
    to; the bag is passed to [instantiate]. *)
Record MessageInstance := mkMessageInstance {
  info_ : MsgInfo;
  index_ : IndexEntry
}.

Definition getTopic (m : MessageInstance) : string := topic (info_ m).
Definition getDatatype (m : MessageInstance) : string := datatype (info_ m).
Definition getMd5sum (m : MessageInstance) : string := md5sum (info_ m).
Definition getDef (m : MessageInstance) : string := msg_def (info_ m).
Definition getTime (m : MessageInstance) : Time := time (index_ m).

(** [MessageInstance::instantiate<T>()] *)
Definition MessageInstance_instantiate (md5_T : string) (m : MessageInstance) (bag : Bag)
    : outcome (option Instance * Bag) :=
  if negb (String.eqb md5_T (getMd5sum m)) &&
     negb (Ascii.eqb (hd zero (list_ascii_of_string md5_T)) "*"%char)
  then Ok (None, bag)
  else Bag_instantiate md5_T (pos (index_ m)) bag.

(** ** Views *)

(** [std::lower_bound(first, last, val, IndexEntryCompare())], the binary
    search of the standard library on positions of [v]; [fuel] bounds the
    halvings. *)
Fixpoint lower_bound_from (fuel : nat) (v : list IndexEntry) (first len : nat) (val : Time) : nat :=
  match fuel with
  | O => first
  | S fuel' =>
      if (len =? 0)%nat then first
      else
        let half := (len / 2)%nat in
        let middle := (first + half)%nat in
        match v !! middle with
        | Some e =>
            if Time_lt (time e) val
            then lower_bound_from fuel' v (middle + 1) (len - half - 1) val
            else lower_bound_from fuel' v first half val
        | None => first
        end
  end.

Definition lower_bound (v : list IndexEntry) (val : Time) : nat :=
  lower_bound_from (length v) v 0 (length v) val.

(** [std::upper_bound(first, last, val, IndexEntryCompare())] *)
Fixpoint upper_bound_from (fuel : nat) (v : list IndexEntry) (first len : nat) (val : Time) : nat :=
  match fuel with
  | O => first
  | S fuel' =>
      if (len =? 0)%nat then first
      else
        let half := (len / 2)%nat in
        let middle := (first + half)%nat in
        match v !! middle with
        | Some e =>
            if Time_lt val (time e)
            then upper_bound_from fuel' v first half val
            else upper_bound_from fuel' v (middle + 1) (len - half - 1) val
        | None => first
        end
  end.

Definition upper_bound (v : list IndexEntry) (val : Time) : nat :=
  upper_bound_from (length v) v 0 (length v) val.

(** Modelled from the spec: [MergeHelper], used by [rosbag.cpp] and declared
    in no file under src/: the two iterators of a slice of one topic's index
    and the topic's [MsgInfo].  An iterator is the vector it runs over and a
    position in it. *)
Record MergeHelper := mkMergeHelper {
  vec : list IndexEntry;
  iter : nat;
  end_ : nat;
  msg_info : MsgInfo
}.

(** [(h.iter)->time]; every helper in a queue has [iter] inside [vec]. *)
Definition iter_time (h : MergeHelper) : Time :=
  match vec h !! iter h with
  | Some e => time e
  | None => mkTime 0 0
  end.

(** Modelled from the spec: [MergeQueue], declared in no file under src/: "a
    min-heap keyed on iter->time containing one entry per non-exhausted
    range", a [std::priority_queue] under the comparison of
    [ViewIterHelperCompare], [a.iter->time > b.iter->time].  The queue is
    kept as the list of its elements in the order they were pushed; [top] is
    the first element that no other element is earlier than (which of
    several earliest elements is on top is left open by the standard). *)
Definition MergeQueue := list MergeHelper.

Definition pq_push (h : MergeHelper) (q : MergeQueue) : MergeQueue := q ++ [h].

(** The top of the queue and the queue without it. *)
Fixpoint pq_extract (q : MergeQueue) : option (MergeHelper * MergeQueue) :=
  match q with
  | [] => None
  | h :: q' =>
      match pq_extract q' with
      | None => Some (h, [])
      | Some (m, r) =>
          if Time_lt (iter_time m) (iter_time h) then Some (m, h :: r)
          else Some (h, q')
      end
  end.

Definition pq_top (q : MergeQueue) : option MergeHelper := fst <$> pq_extract q.
Definition pq_pop (q : MergeQueue) : MergeQueue := default [] (snd <$> pq_extract q).
Definition pq_empty (q : MergeQueue) : bool := bool_decide (q = []).

(** [class View] as [rosbag.cpp] uses it: the queue and the size. *)
Record View := mkView {
  merge_queue_ : MergeQueue;
  size_ : Z
}.

(** One round of the loop of [Bag::getViewByTopic]. *)
Definition getViewByTopic_step (s : Bag) (start_time end_time : Time)
    (acc : MergeQueue * Z) (t : string) : MergeQueue * Z :=
  match topic_indexes_ s !! t, topics_recorded_ s !! t with
  | Some ind, Some key =>
      let h := mkMergeHelper ind (lower_bound ind start_time)
                 (upper_bound ind end_time) key in
      if bool_decide (iter h = end_ h) then acc
      else (pq_push h acc.1, acc.2 + (Z.of_nat (end_ h) - Z.of_nat (iter h)))
  | _, _ => acc
  end.

(** [Bag::getViewByTopic(topics, start_time, end_time)] *)
Definition getViewByTopic (topics : list string) (start_time end_time : Time) (s : Bag) : View :=
  let '(merge_queue, size) :=
    foldl (getViewByTopic_step s start_time end_time) ([], 0) topics in
  mkView merge_queue size.

(** [View::iterator]: a copy of the queue. *)
Definition iterator := MergeQueue.

Definition View_begin (v : View) : iterator := merge_queue_ v.
Definition View_end (v : View) : iterator := [].
Definition View_size (v : View) : Z := wrap32 (size_ v).

(** Equality of two vector iterators: the same vector, the same position.
    The vector a helper runs over is the index of its topic. *)
Definition same_iter (a b : MergeHelper) : bool :=
  bool_decide (topic (msg_info a) = topic (msg_info b)) && (iter a =? iter b)%nat.

(** [View::iterator::equal] *)
Definition iterator_equal (a b : iterator) : bool :=
  if pq_empty a && pq_empty b then true
  else if pq_empty a || pq_empty b then false
  else match pq_top a, pq_top b with
       | Some x, Some y => same_iter x y
       | _, _ => false
       end.

(** [View::iterator::increment] *)
Definition iterator_increment (it : iterator) : outcome iterator :=
  match pq_top it with
  | None => UndefinedBehaviour
  | Some t =>
      let q := pq_pop it in
      let t := mkMergeHelper (vec t) (iter t + 1) (end_ t) (msg_info t) in
      Ok (if bool_decide (iter t = end_ t) then q else pq_push t q)
  end.

(** [View::iterator::dereference] *)
Definition iterator_dereference (it : iterator) : outcome MessageInstance :=
  match pq_top it with
  | None => UndefinedBehaviour
  | Some t =>
      match vec t !! iter t with
      | None => UndefinedBehaviour
      | Some e => Ok (mkMessageInstance (msg_info t) e)
      end
  end.

(** The caller's loop [for (it = view.begin(); it != view.end(); ++it)],
    collecting [*it]. *)
Fixpoint traverse (fuel : nat) (it : iterator) : outcome (list MessageInstance) :=
  if iterator_equal it [] then Ok []
  else match fuel with
       | O => Diverges
       | S fuel' =>
           m ← iterator_dereference it;
           it ← iterator_increment it;
           ms ← traverse fuel' it;
           Ok (m :: ms)
       end.

(** What is left to visit: every round either moves an iterator one step
    further inside its vector or stops at an iterator outside of it. *)
Definition remaining (it : iterator) : nat :=
  sum_list (map (fun h => length (vec h) - iter h)%nat it).

Definition View_messages (v : View) : outcome (list MessageInstance) :=
  traverse (remaining (View_begin v)) (View_begin v).

(** ** Callers

    The loops a program that records and replays a bag runs around the
    functions above. *)

(** One [write] per element, in order. *)
Fixpoint write_all (l : list (Env * string * Time * Message)) (s : Bag) : outcome Bag :=
  match l with
  | [] => Ok s
  | (env, topic_name, stamp, msg) :: l' =>
      s ← write env topic_name stamp msg s; write_all l' s
  end.

(** [m.instantiate<T>()] for every message of a traversal, each as the type
    whose fingerprint the message records; a message is reported by its
    topic, its time and the bytes handed to [deserialize]. *)
Fixpoint instantiate_all (ms : list MessageInstance) (s : Bag)
    : outcome (list (string * Time * option (list ascii))) :=
  match ms with
  | [] => Ok []
  | m :: ms' =>
      '(p, s) ← MessageInstance_instantiate (getMd5sum m) m s;
      rest ← instantiate_all ms' s;
      Ok ((getTopic m, getTime m, option_map i_buffer p) :: rest)
  end.

(** Record [l] into the file [name], close it, open it again with a new
    [Bag] and replay the view of [topics] between [start_time] and
    [end_time]. *)
Definition record_and_replay (env : Env) (name : string)
    (l : list (Env * string * Time * Message)) (u : Uninit) (fs : FileSystem)
    (topics : list string) (start_time end_time : Time)
    : outcome (list (string * Time * option (list ascii))) :=
  '(_, s, fs) ← open env name Write (Bag_new u) fs;
  s ← write_all l s;
  let '(_, fs) := close s fs in
  '(_, s, _) ← open env name Read (Bag_new u) fs;
  ms ← View_messages (getViewByTopic topics start_time end_time s);
  instantiate_all ms s.

(** What was recorded, as the replay reports it. *)
Definition recorded (w : Env * string * Time * Message)
    : string * Time * option (list ascii) :=
  (w.1.1.2, w.1.2, Some (serialized w.2)).

(** ** The bytes of a record *)

(** What [writeHeader(fields, data_len)] puts into the file. *)
Definition header_bytes (fields : M_string) (data_len : Z) : list ascii :=
  le_bytes 4 (Header_write fields).2 ++
  take (Z.to_nat (Header_write fields).2) (Header_write fields).1 ++
  le_bytes 4 data_len.

(** What [writeRecord(fields, data, data_len)] puts into the file. *)
Definition record_bytes (fields : M_string) (data : list ascii) : list ascii :=
  header_bytes fields (wrap32 (Z.of_nat (length data))) ++ data.

(** A vector of index entries in non-decreasing time order. *)
Definition time_sorted (v : list IndexEntry) : Prop :=
  forall i j a b, (i <= j)%nat -> v !! i = Some a -> v !! j = Some b ->
    Time_le (time a) (time b) = true.

(** [TIME_MIN] and [TIME_MAX] of [ros/time.h], which is missing: the least
    timestamp and the greatest timestamp with [nsec] below one second.
    Modelled from the spec: "a View over all topics and
    [TIME_MIN, TIME_MAX)". *)
Definition TIME_MIN : Time := mkTime 0 0.
Definition TIME_MAX : Time := mkTime UINT_MAX 999999999.

(** ** Predicates on writer states *)

(** The write stream is open, has not failed and stands at the end of what
    was written. *)
Definition good (s : Bag) : Prop :=
  w_open (write_stream_ s) = true /\
  w_fail (write_stream_ s) = false /\
  w_pos (write_stream_ s) = length (w_data (write_stream_ s)).

(** [s] after [bs] went to the end of the file. *)
Definition appended (bs : list ascii) (s : Bag) : Bag :=
  set_record_pos (wrap64 (record_pos_ s + Z.of_nat (length bs)))
    (set_write_stream
       (mkOfstream true (w_name (write_stream_ s)) (w_data (write_stream_ s) ++ bs)
          (length (w_data (write_stream_ s) ++ bs)) false (w_limit (write_stream_ s)))
       s).

(** The [MsgInfo] the first [write] on a topic records. *)
Definition info_of (topic_name : string) (msg : Message) : MsgInfo :=
  mkMsgInfo topic_name (__getMessageDefinition msg) (__getMD5Sum msg) (__getDataType msg).

(** The topic table after [write] has seen [topic_name]. *)
Definition admitted (topic_name : string) (msg : Message) (m : gmap string MsgInfo)
    : gmap string MsgInfo :=
  match m !! topic_name with
  | Some _ => m
  | None => <[topic_name := info_of topic_name msg]> m
  end.

(** The records one accepted [write] emits: the definition record when the
    topic is new, then the data record. *)
Definition write_bytes (m : gmap string MsgInfo) (topic_name : string) (stamp : Time)
    (msg : Message) : list ascii :=
  let info := admitted topic_name msg m !!! topic_name in
  (match m !! topic_name with
   | Some _ => []
   | None => header_bytes (def_header topic_name info) 0
   end) ++
  record_bytes (data_header topic_name info stamp (latching_of msg) (callerid_of msg))
    (serialized msg).

(** [s] after [bs] went to the file at the put position. *)
Definition put (bs : list ascii) (s : Bag) : Bag :=
  set_record_pos (wrap64 (record_pos_ s + Z.of_nat (length bs)))
    (set_write_stream
       (mkOfstream true (w_name (write_stream_ s))
          (overwrite (w_data (write_stream_ s)) (w_pos (write_stream_ s)) bs)
          (w_pos (write_stream_ s) + length bs) false (w_limit (write_stream_ s)))
       s).

(** The index entry of an accepted [write] and where its records went. *)
Record Placed := mkPlaced {
  p_off : nat;
  p_new : bool;
  p_info : MsgInfo;
  p_topic : string;
  p_stamp : Time;
  p_msg : Message
}.

Definition p_bytes (p : Placed) : list ascii :=
  (if p_new p then header_bytes (def_header (p_topic p) (p_info p)) 0 else []) ++
  record_bytes (data_header (p_topic p) (p_info p) (p_stamp p)
                  (latching_of (p_msg p)) (callerid_of (p_msg p)))
    (serialized (p_msg p)).

Definition p_entry (p : Placed) : IndexEntry :=
  mkIndexEntry (p_stamp p) (wrap64 (Z.of_nat (p_off p))).

(** Where the records of the writes [l] go in a file that has [off] bytes,
    [m] being the topics known so far. *)
Fixpoint placement (m : gmap string MsgInfo) (off : nat)
    (l : list (Env * string * Time * Message)) : list Placed :=
  match l with
  | [] => []
  | (_, t, stamp, msg) :: l' =>
      let p := mkPlaced off (bool_decide (m !! t = None)) (admitted t msg m !!! t)
                 t stamp msg in
      p :: placement (admitted t msg m) (off + length (p_bytes p)) l'
  end.

Definition add_placed (idx : gmap string (list IndexEntry)) (p : Placed)
    : gmap string (list IndexEntry) :=
  <[p_topic p := (if p_new p then [] else idx !!! p_topic p) ++ [p_entry p]]> idx.

Definition admit_all (m : gmap string MsgInfo) (l : list (Env * string * Time * Message))
    : gmap string MsgInfo :=
  foldl (fun m w => admitted w.1.1.2 w.2 m) m l.

(** The disk check of a call finds room, when it is made. *)
Definition disk_ok (env : Env) : Prop :=
  match statvfs env with
  | Some (f_bsize, f_bavail) => 1073741824 <= wrap64 (f_bsize * f_bavail)
  | None => True
  end.

(** The bytes of the version line and of the file-header record. *)
Definition version_bytes : list ascii :=
  list_ascii_of_string ("#ROSRECORD V" +:+ VERSION +:+ String newline EmptyString).

Definition file_header_fields (index_pos : Z) : M_string :=
  <[INDEX_POS_FIELD_NAME := string_of_uint 8 index_pos]>
    (<[OP_FIELD_NAME := string_of_uint 1 OP_FILE_HEADER]> ∅).

Definition file_header_bytes (index_pos : Z) : list ascii :=
  header_bytes (file_header_fields index_pos) 4066 ++ repeat " "%char 4066.

(** The bytes of the index block of one topic. *)
Definition index_header (topic_name : string) (type : string) (count : Z) : M_string :=
  <[COUNT_FIELD_NAME := string_of_uint 4 count]>
    (<[VER_FIELD_NAME := string_of_uint 4 INDEX_VERSION]>
       (<[TYPE_FIELD_NAME := type]>
          (<[TOPIC_FIELD_NAME := topic_name]>
             (<[OP_FIELD_NAME := string_of_uint 1 OP_INDEX_DATA]> ∅)))).

Definition entry_bytes (e : IndexEntry) : list ascii :=
  le_bytes 4 (sec (time e)) ++ le_bytes 4 (nsec (time e)) ++ le_bytes 8 (pos e).

Definition index_block (m : gmap string MsgInfo) (item : string * list IndexEntry)
    : list ascii :=
  header_bytes
    (index_header item.1 (datatype (m !!! item.1))
       (wrap32 (Z.of_nat (length item.2))))
    (wrap32 (wrap32 (Z.of_nat (length item.2)) * 16)) ++
  concat (map entry_bytes item.2).

(** A write that the disk check lets through and whose message reports its
    length in 32 bits. *)
Definition wf_write (w : Env * string * Time * Message) : Prop :=
  disk_ok w.1.1.1 /\ Z.of_nat (length (serialized w.2)) < 2 ^ 32.

(** The bag when [open] enters its block for the write mode. *)
Definition open_write_start (env : Env) (name : string) (u : Uninit) (fs : FileSystem) : Bag :=
  (checkDisk (statvfs env)
     (set_record_pos 0
        (set_warn_next 0
           (set_check_disk_next (now env + seconds 20)
              (set_write_stream (mkOfstream true name [] 0 false (fs_limit fs))
                 (set_file_name name (set_mode Write (Bag_new u)))))))).2.

(** The body of the inner loop of [Bag::writeIndex]. *)
Definition put_entry (s : Bag) (index_entry : IndexEntry) : Bag :=
  writefil (le_bytes 8 (pos index_entry))
    (writefil (le_bytes 4 (nsec (time index_entry)))
       (writefil (le_bytes 4 (sec (time index_entry))) s)).


(** A bag written and not yet closed: the file is the version line, the
    file-header record with a zero index position and [body]; the positions
    the bag keeps agree with it and every indexed topic is known. *)
Definition writer_layout (s : Bag) (body : list ascii) : Prop :=
  good s /\
  w_data (write_stream_ s) = version_bytes ++ file_header_bytes 0 ++ body /\
  record_pos_ s = wrap64 (Z.of_nat (length (w_data (write_stream_ s)))) /\
  file_header_pos_ s = 16 /\
  forall t, is_Some (topic_indexes_ s !! t) -> is_Some (topics_recorded_ s !! t).

(** The index blocks [close] appends for the maps of [s]. *)
Definition index_bytes (s : Bag) : list ascii :=
  concat (map (index_block (topics_recorded_ s)) (map_items (topic_indexes_ s))).

(** The binary search of [std::lower_bound] and [std::upper_bound] for a
    test [P] that holds on a prefix of the vector: the end of that prefix. *)
Fixpoint search (P : IndexEntry -> bool) (fuel : nat) (v : list IndexEntry)
    (first len : nat) : nat :=
  match fuel with
  | O => first
  | S fuel' =>
      if (len =? 0)%nat then first
      else
        let half := (len / 2)%nat in
        let middle := (first + half)%nat in
        match v !! middle with
        | Some e =>
            if P e then search P fuel' v (middle + 1) (len - half - 1)
            else search P fuel' v first half
        | None => first
        end
  end.

(** The entries a helper still has to yield. *)
Definition slice (h : MergeHelper) : list IndexEntry :=
  take (end_ h - iter h) (drop (iter h) (vec h)).

Definition slice_messages (h : MergeHelper) : list MessageInstance :=
  map (mkMessageInstance (msg_info h)) (slice h).

(** A helper as [getViewByTopic] pushes it: a non-empty range inside a
    vector in time order. *)
Definition valid_helper (h : MergeHelper) : Prop :=
  (iter h < end_ h)%nat /\ (end_ h <= length (vec h))%nat /\ time_sorted (vec h).

(** Messages in non-decreasing time order. *)
Definition by_time (a b : MessageInstance) : Prop :=
  Time_le (getTime a) (getTime b) = true.

(** [P] holds on a prefix of [v]. *)
Definition prefix_test (P : IndexEntry -> bool) (v : list IndexEntry) : Prop :=
  forall i j a b, (i <= j)%nat -> v !! i = Some a -> v !! j = Some b ->
    P b = true -> P a = true.

(** [r] is where the prefix on which [P] holds ends. *)
Definition prefix_end (P : IndexEntry -> bool) (v : list IndexEntry) (r : nat) : Prop :=
  (r <= length v)%nat /\
  (forall i e, v !! i = Some e -> (i < r)%nat -> P e = true) /\
  (forall i e, v !! i = Some e -> (r <= i)%nat -> P e = false).


(** The number of entries the helpers of a queue still have to yield. *)
Definition total (q : MergeQueue) : nat :=
  sum_list (map (fun h => end_ h - iter h)%nat q).

(** ** Concrete inputs used by the examples *)

Definition u0 : Uninit := mkUninit 0 0 0 0 0 0 zero.
Definition fs0 : FileSystem := mkFS ∅ ∅ None.
Definition env0 : Env := mkEnv 0 None.
Definition md5_int32 : string := "da5909fbe378aeaf85e547e830cc1bb7".
Definition msg0 (payload : string) : Message :=
  mkMessage "int32 data" "std_msgs/Int32" md5_int32 (list_ascii_of_string payload) None.
Definition at_sec (n : Z) : Time := mkTime n 0.

(** A bag freshly opened for writing on an unbounded device. *)
Definition writer0 : Bag :=
  match open env0 "x.bag" Write (Bag_new u0) fs0 with
  | Ok (_, s, _) => s
  | _ => Bag_new u0
  end.

(** A bag opened for writing on a device that takes 4200 bytes: the version
    line and the file header fit, the records of a message do not. *)
Definition writer_full : Bag :=
  match open env0 "x.bag" Write (Bag_new u0) (mkFS ∅ ∅ (Some 4200%nat)) with
  | Ok (_, s, _) => s
  | _ => Bag_new u0
  end.

(** A bag whose read stream is at the start of a file holding [content]. *)
Definition reader_of (content : string) : Bag :=
  set_read_stream (mkIfstream (Some (list_ascii_of_string content)) 0 false false)
    (Bag_new u0).
(** The file the writer leaves after recording [l] from [writer0]. *)
Definition recorded_file (l : list (Env * string * Time * Message)) : list ascii :=
  match write_all l writer0 with
  | Ok s => default [] (fs_files (close s fs0).2 !! "x.bag")
  | _ => []
  end.

(** A bag of one message whose version line reads [V1.3] instead of
    [V1.2]: the digit is at offset 14. *)
Definition file_v1_3 : list ascii :=
  overwrite (recorded_file [(env0, "/a", at_sec 1, msg0 "abcd")]) 14 ["3"%char].



(** ** Facts on the little-endian encoding *)

Lemma le_bytes_length n x : length (le_bytes n x) = n.
Proof. revert x; induction n as [|n IH]; intros x; simpl; [done|by rewrite IH]. Qed.

Lemma byte_value_mod x : Z.of_N (N_of_ascii (ascii_of_N (Z.to_N (x mod 256)))) = x mod 256.
Proof.
  assert (0 <= x mod 256 < 256) by (apply Z.mod_pos_bound; lia).
  rewrite N_ascii_embedding by lia. lia.
Qed.

Lemma le_value_bytes n x : le_value (le_bytes n x) = x mod 2 ^ (8 * Z.of_nat n).
Proof.
  revert x; induction n as [|n IH]; intros x.
  - simpl. by rewrite Z.mod_1_r.
  - cbn [le_bytes le_value]. rewrite byte_value_mod, IH.
    replace (8 * Z.of_nat (S n)) with (8 + 8 * Z.of_nat n) by lia.
    rewrite Z.pow_add_r by lia. change (2 ^ 8) with 256.
    rewrite Z.rem_mul_r by lia. lia.
Qed.

Lemma le_value_bytes_small n x :
  0 <= x < 2 ^ (8 * Z.of_nat n) -> le_value (le_bytes n x) = x.
Proof. intros. rewrite le_value_bytes. by apply Z.mod_small. Qed.

Lemma le_value_bound bs : 0 <= le_value bs < 2 ^ (8 * Z.of_nat (length bs)).
Proof.
  induction bs as [|b bs IH]; [simpl; lia|].
  cbn [le_value length].
  replace (8 * Z.of_nat (S (length bs))) with (8 + 8 * Z.of_nat (length bs)) by lia.
  rewrite Z.pow_add_r by lia. change (2 ^ 8) with 256.
  pose proof (N_ascii_bounded b). lia.
Qed.

Lemma store_full old got : (length old <= length got)%nat -> store old got = got.
Proof. intros. unfold store. rewrite drop_ge by done. by rewrite app_nil_r. Qed.

Lemma uint_of_string_of_uint n x :
  0 <= x < 2 ^ (8 * Z.of_nat n) -> uint_of_string (string_of_uint n x) = x.
Proof.
  intros. unfold uint_of_string, string_of_uint.
  rewrite list_ascii_of_string_of_list_ascii. by apply le_value_bytes_small.
Qed.

Lemma string_length_list s : String.length s = length (list_ascii_of_string s).
Proof. induction s; simpl; congruence. Qed.

Lemma string_of_uint_length n x : String.length (string_of_uint n x) = n.
Proof.
  unfold string_of_uint. rewrite string_length_list.
  rewrite list_ascii_of_string_of_list_ascii. apply le_bytes_length.
Qed.

(** ** Writing while the disk supervisor has disabled the bag *)

Lemma set_warn_next_same s : set_warn_next (warn_next_ s) s = s.
Proof. by destruct s. Qed.

(** C7: a [write] made while [writing_enabled_] is false returns normally
    and changes nothing but the time of the next warning: no index entry, no
    topic, no byte written, the write position kept. *)
Theorem write_disabled_discards env topic_name stamp msg s :
  writing_enabled_ s = false ->
  exists s', write env topic_name stamp msg s = Ok s' /\
    topic_indexes_ s' = topic_indexes_ s /\
    topics_recorded_ s' = topics_recorded_ s /\
    write_stream_ s' = write_stream_ s /\
    record_pos_ s' = record_pos_ s /\
    s' = set_warn_next (warn_next_ s') s.
Proof.
  intros Hoff. unfold write. rewrite Hoff. cbn [negb].
  destruct (warn_next_ s <? now env).
  - eexists. split; [reflexivity|]. by repeat split.
  - exists s. split; [reflexivity|]. repeat split. by rewrite set_warn_next_same.
Qed.

Lemma write_disabled_discards_witness :
  exists s', write env0 "/a" (at_sec 1) (msg0 "abcd") (set_writing_enabled false writer0) = Ok s' /\
    topic_indexes_ s' = topic_indexes_ (set_writing_enabled false writer0) /\
    topics_recorded_ s' = topics_recorded_ (set_writing_enabled false writer0) /\
    write_stream_ s' = write_stream_ (set_writing_enabled false writer0) /\
    record_pos_ s' = record_pos_ (set_writing_enabled false writer0) /\
    s' = set_warn_next (warn_next_ s') (set_writing_enabled false writer0).
Proof.
  apply (write_disabled_discards env0 "/a" (at_sec 1) (msg0 "abcd")
           (set_writing_enabled false writer0)).
  reflexivity.
Defined.

(** ** The fingerprint check of [MessageInstance::instantiate] *)

(** C8: when the fingerprint of [T] differs from the recorded one and does
    not begin with ['*'], [instantiate<T>()] returns the null pointer, raises
    nothing and leaves the bag alone; when it begins with ['*'] the check is
    skipped and the record is loaded by [Bag::instantiate<T>]. *)
Theorem instantiate_fingerprint_check md5_T m bag :
  (md5_T <> getMd5sum m ->
   hd zero (list_ascii_of_string md5_T) <> "*"%char ->
   MessageInstance_instantiate md5_T m bag = Ok (None, bag)) /\
  (hd zero (list_ascii_of_string md5_T) = "*"%char ->
   MessageInstance_instantiate md5_T m bag = Bag_instantiate md5_T (pos (index_ m)) bag).
Proof.
  unfold MessageInstance_instantiate. split.
  - intros Hne Hstar.
    destruct (String.eqb_spec md5_T (getMd5sum m)) as [->|_]; [done|].
    destruct (Ascii.eqb_spec (hd zero (list_ascii_of_string md5_T)) "*"%char); done.
  - intros ->. rewrite Ascii.eqb_refl. by rewrite andb_false_r.
Qed.

Lemma instantiate_fingerprint_check_witness :
  MessageInstance_instantiate "00000000000000000000000000000000"
    (mkMessageInstance (mkMsgInfo "/a" "int32 data" md5_int32 "std_msgs/Int32")
       (mkIndexEntry (at_sec 1) 4120)) writer0 = Ok (None, writer0) /\
  MessageInstance_instantiate "*"
    (mkMessageInstance (mkMsgInfo "/a" "int32 data" md5_int32 "std_msgs/Int32")
       (mkIndexEntry (at_sec 1) 4120)) writer0 = Bag_instantiate "*" 4120 writer0.
Proof.
  split.
  - apply (instantiate_fingerprint_check "00000000000000000000000000000000"); done.
  - apply (instantiate_fingerprint_check "*"
             (mkMessageInstance (mkMsgInfo "/a" "int32 data" md5_int32 "std_msgs/Int32")
                (mkIndexEntry (at_sec 1) 4120)) writer0). reflexivity.
Defined.

(** ** I/O failures during [write] *)

Lemma write_never_throws env topic_name stamp msg s e :
  write env topic_name stamp msg s <> Thrown e.
Proof.
  unfold write, write_emit. repeat case_match; done.
Qed.

(** C6, evaluated: on a device that takes 4200 bytes the records of the
    first message do not fit; the stream goes bad during the call and
    [write] returns normally all the same. *)
Theorem write_failure_not_surfaced :
  exists s', write env0 "/a" (at_sec 1) (msg0 "abcd") writer_full = Ok s' /\
    w_fail (write_stream_ writer_full) = false /\
    w_fail (write_stream_ s') = true /\
    length (w_data (write_stream_ s')) = 4200%nat.
Proof. vm_compute. eexists. repeat split. Qed.

(** ** The version check *)

Lemma readVersion_check s line rs major minor :
  ifstream_getline (read_stream_ s) = (line, rs) ->
  sscanf_version (c_str (list_ascii_of_string line)) = Ok (Some major, Some minor) ->
  1 <= major <= 1000 -> 0 <= minor <= 1000 ->
  readVersion s =
    if negb (major =? 1) && negb (minor =? 2) then AssertFailed
    else Ok (true, set_version (major * 100 + minor)
                     (set_version_minor minor
                        (set_version_major major (set_read_stream rs s)))).
Proof.
  intros Hline Hscan Hmaj Hmin. unfold readVersion. rewrite Hline, Hscan.
  change (sscanf_d_dot_d (c_str (list_ascii_of_string VERSION))) with
    (@Ok (option Z * option Z) (Some 1, Some 2)).
  simpl. unfold INT_MIN, INT_MAX.
  assert ((major =? 0) = false) as -> by lia. simpl.
  assert ((- 2 ^ 31 <=? major * 100) = true) as -> by lia.
  assert ((major * 100 <=? 2 ^ 31 - 1) = true) as -> by lia.
  assert ((- 2 ^ 31 <=? major * 100 + minor) = true) as -> by lia.
  assert ((major * 100 + minor <=? 2 ^ 31 - 1) = true) as -> by lia.
  reflexivity.
Qed.

(** C3, evaluated: a bag whose version line reads [V1.3] is opened for
    reading by a library whose version is [1.2]; the minor numbers differ,
    the version is accepted and the bootstrap loads the index. *)
Theorem open_accepts_other_minor :
  exists s', open env0 "x.bag" Read (Bag_new u0) (mkFS {["x.bag" := file_v1_3]} ∅ None)
             = Ok (true, s', mkFS {["x.bag" := file_v1_3]} ∅ None) /\
    version_major_ s' = 1 /\ version_minor_ s' = 3 /\
    topic_indexes_ s' = {["/a" := [mkIndexEntry (at_sec 1) 4120]]}.
Proof. vm_compute. eexists. repeat split. Qed.

Example readVersion_other_major :
  exists s', readVersion (reader_of ("#ROSRECORD V2.2" +:+ String newline "")) = Ok (true, s').
Proof. vm_compute. by eexists. Qed.

Example readVersion_both_differ :
  readVersion (reader_of ("#ROSRECORD V2.3" +:+ String newline "")) = AssertFailed.
Proof. reflexivity. Qed.

(** ** Opening a file that cannot be read *)

Lemma modes_of_set name m s :
  readMode (set_file_name name (set_mode m s)) = negb (Z.land m Read =? 0) /\
  writeMode (set_file_name name (set_mode m s)) = negb (Z.land m Write =? 0) /\
  appendMode (set_file_name name (set_mode m s)) = negb (Z.land m Append =? 0).
Proof. done. Qed.

(** C10: [open(file_name, Read)] on a new [Bag] returns true although no
    file of that name can be opened: the test after [read_stream_.open]
    looks at [write_stream_], which has not failed, and the bootstrap runs on
    the unopened stream.  The indeterminate values are those with which the
    run goes through: version members that pass the version check and a
    zero in the header length no read has filled. *)
Theorem open_read_ignores_failed_stream env name u fs :
  fs_files fs !! name = None ->
  u_local u = 0 ->
  u_version_major u = 1 ->
  u_version_minor u = 2 ->
  exists s', open env name Read (Bag_new u) fs = Ok (true, s', fs) /\
    r_file (read_stream_ s') = None /\ r_fail (read_stream_ s') = true.
Proof.
  intros Hfile Hlocal Hmaj Hmin.
  unfold open.
  destruct (modes_of_set name Read (Bag_new u)) as (-> & -> & ->).
  change (negb (Z.land Read Read =? 0)) with true.
  change (negb (Z.land Read Write =? 0)) with false.
  change (negb (Z.land Read Append =? 0)) with false.
  cbn [andb negb assert mbind outcome_bind].
  unfold ifstream_open.
  cbn [read_stream_ set_file_name set_mode Bag_new ifstream_init r_file].
  rewrite Hfile.
  cbn [write_stream_ set_read_stream set_file_name set_mode Bag_new ofstream_init w_fail].
  rewrite (proj1 (modes_of_set name Read (Bag_new u))).
  change (negb (Z.land Read Read =? 0)) with true. cbv iota.
  destruct u as [um ur uv umaj umin ul uh]. cbn in Hlocal, Hmaj, Hmin. subst.
  eexists. split; [vm_compute; reflexivity|]. vm_compute. done.
Qed.

Lemma open_read_ignores_failed_stream_witness :
  exists s', open env0 "missing.bag" Read (Bag_new (mkUninit 0 0 0 1 2 0 zero)) fs0
             = Ok (true, s', fs0) /\
    r_file (read_stream_ s') = None /\ r_fail (read_stream_ s') = true.
Proof.
  apply (open_read_ignores_failed_stream env0 "missing.bag"
           (mkUninit 0 0 0 1 2 0 zero) fs0); reflexivity.
Defined.

(** Projections of updated bags. *)
Ltac bag_simpl :=
  cbn [mode_ file_name_ read_stream_ write_stream_ record_pos_ file_header_pos_
       index_data_pos_ topics_recorded_ topic_indexes_ header_buf_ message_buf_
       message_buf_len_ writing_enabled_ check_disk_next_ warn_next_ version_
       version_major_ version_minor_ uninit_
       set_mode set_file_name set_read_stream set_write_stream set_record_pos
       set_file_header_pos set_index_data_pos set_topics_recorded set_topic_indexes
       set_header_buf set_message_buf set_message_buf_len set_writing_enabled
       set_check_disk_next set_warn_next set_version set_version_major
       set_version_minor appended id
       w_open w_name w_data w_pos w_fail w_limit
       r_file r_pos r_eof r_fail] in *.

(** ** The write stream *)

Lemma overwrite_end data bs : overwrite data (length data) bs = data ++ bs.
Proof.
  unfold overwrite. rewrite resize_all, drop_ge by lia. by rewrite app_nil_r.
Qed.

Lemma ofstream_write_sticky bs st :
  w_fail st = true -> w_fail (ofstream_write bs st) = true.
Proof. intros H. unfold ofstream_write. rewrite H, orb_true_r. done. Qed.

Lemma ofstream_write_ok bs st :
  w_fail (ofstream_write bs st) = false ->
  w_open st = true /\ w_fail st = false /\
  ofstream_write bs st =
    mkOfstream true (w_name st) (overwrite (w_data st) (w_pos st) bs)
      (w_pos st + length bs) false (w_limit st).
Proof.
  unfold ofstream_write.
  destruct (w_open st) eqn:Hopen, (w_fail st) eqn:Hfail; cbn [negb orb]; try done.
  set (room := match w_limit st with
               | Some lim => (length bs `min` (lim - w_pos st))%nat
               | None => length bs
               end).
  cbn [w_fail]. intros Hroom%Nat.ltb_ge.
  assert (room = length bs) as Hr by (subst room; destruct (w_limit st); lia).
  rewrite Hr, take_ge by lia. rewrite Nat.ltb_irrefl. done.
Qed.

Lemma ofstream_write_unbounded bs st :
  w_open st = true -> w_fail st = false -> w_limit st = None ->
  w_fail (ofstream_write bs st) = false.
Proof.
  intros Ho Hf Hl. unfold ofstream_write. rewrite Ho, Hf, Hl. cbn.
  apply Nat.ltb_irrefl.
Qed.

(** ** [writefil] and the functions made of it *)

Lemma writefil_sticky bs s :
  w_fail (write_stream_ s) = true -> w_fail (write_stream_ (writefil bs s)) = true.
Proof. intros. unfold writefil. cbn. by apply ofstream_write_sticky. Qed.

Lemma writefil_appended bs s :
  good s -> w_fail (write_stream_ (writefil bs s)) = false ->
  writefil bs s = appended bs s.
Proof.
  intros (Ho & Hf & Hp) Hok. unfold writefil in *. cbn in Hok.
  destruct (ofstream_write_ok _ _ Hok) as (_ & _ & ->).
  unfold appended. rewrite Hp, overwrite_end, length_app. done.
Qed.

Lemma good_appended bs s : good s -> good (appended bs s).
Proof. intros (Ho & Hf & Hp). by repeat split. Qed.

Lemma appended_nil s : good s -> 0 <= record_pos_ s < 2 ^ 64 -> appended [] s = s.
Proof.
  intros (Ho & Hf & Hp) Hr. unfold appended. cbn [length].
  rewrite app_nil_r, Z.add_0_r. unfold wrap64. rewrite Z.mod_small by done.
  destruct s as [? ? ? [] ? ? ? ? ? ? ? ? ? ? ? ? ? ? ?]; cbn in *. by subst.
Qed.

Lemma appended_app bs1 bs2 s :
  appended bs2 (appended bs1 s) = appended (bs1 ++ bs2) s.
Proof.
  unfold appended. cbn. rewrite <- !app_assoc. unfold wrap64.
  rewrite !length_app, Nat2Z.inj_add, Zplus_mod_idemp_l.
  by rewrite Z.add_assoc.
Qed.

Lemma nofail_appended bs s : w_fail (write_stream_ (appended bs s)) = false.
Proof. done. Qed.

Lemma writeHeader_sticky fields dl s :
  w_fail (write_stream_ s) = true -> w_fail (write_stream_ (writeHeader fields dl s)) = true.
Proof.
  intros. unfold writeHeader. destruct (Header_write fields).
  by do 3 apply writefil_sticky.
Qed.

Lemma nofail_before bs s :
  w_fail (write_stream_ (writefil bs s)) = false -> w_fail (write_stream_ s) = false.
Proof.
  intros H. destruct (w_fail (write_stream_ s)) eqn:E; [|done].
  by rewrite writefil_sticky in H.
Qed.

Lemma writeHeader_appended fields dl s :
  good s -> w_fail (write_stream_ (writeHeader fields dl s)) = false ->
  writeHeader fields dl s = appended (header_bytes fields dl) s.
Proof.
  intros Hg Hok. unfold writeHeader, header_bytes in *.
  destruct (Header_write fields) as [buf hl]. cbn [fst snd].
  pose proof (nofail_before _ _ Hok) as Hok2.
  pose proof (nofail_before _ _ Hok2) as Hok1.
  rewrite (writefil_appended _ s Hg Hok1) in Hok2, Hok |- *.
  rewrite (writefil_appended _ _ (good_appended _ _ Hg) Hok2) in Hok |- *.
  rewrite writefil_appended by auto using good_appended.
  by rewrite !appended_app.
Qed.

Lemma writeRecord_sticky fields data dl s :
  w_fail (write_stream_ s) = true ->
  w_fail (write_stream_ (writeRecord fields data dl s)) = true.
Proof. intros. unfold writeRecord. by apply writefil_sticky, writeHeader_sticky. Qed.

Lemma writeRecord_appended fields data s :
  good s -> Z.of_nat (length data) < 2 ^ 32 ->
  w_fail (write_stream_ (writeRecord fields data (wrap32 (Z.of_nat (length data))) s)) = false ->
  writeRecord fields data (wrap32 (Z.of_nat (length data))) s
  = appended (record_bytes fields data) s.
Proof.
  intros Hg Hlen Hok. unfold writeRecord, record_bytes in *.
  pose proof (nofail_before _ _ Hok) as Hok1.
  rewrite (writeHeader_appended _ _ _ Hg Hok1) in Hok |- *.
  rewrite writefil_appended by auto using good_appended.
  rewrite appended_app. unfold wrap32. rewrite Z.mod_small by lia.
  by rewrite Nat2Z.id, take_ge by lia.
Qed.

(** ** One [write] *)

Lemma double_until_ge fuel size len size' :
  double_until fuel size len = Some size' -> len <= size'.
Proof.
  revert size. induction fuel as [|fuel IH]; intros size; cbn;
    destruct (len <=? size) eqn:E; try done.
  - intros [= <-]. lia.
  - intros [= <-]. lia.
  - apply IH.
Qed.

Lemma double_until_small fuel size len :
  0 < size -> len <= 2 ^ 31 -> len <= size * 2 ^ Z.of_nat fuel ->
  exists size', double_until fuel size len = Some size'.
Proof.
  revert size. induction fuel as [|fuel IH]; intros size Hs Hl Hpow.
  - cbn in *. destruct (len <=? size) eqn:E; [|lia]. by exists size.
  - cbn [double_until]. destruct (len <=? size) eqn:E; [by exists size|].
    assert (wrap32 (size * 2) = size * 2) as ->
      by (unfold wrap32; apply Z.mod_small; lia).
    apply IH; [lia|done|].
    rewrite Nat2Z.inj_succ, Z.pow_succ_r in Hpow by lia. lia.
Qed.

Lemma write_reserve_ge len s buf :
  write_reserve len s = Some buf -> len <= Z.of_nat (length buf).
Proof.
  unfold write_reserve. intros (size' & Hsz & [= <-])%bind_Some.
  rewrite length_app, repeat_length.
  destruct (Z.of_nat (length (message_buf_ s)) <? len) eqn:E.
  - destruct (Z.of_nat (length (message_buf_ s)) =? 0) eqn:E0.
    + injection Hsz as <-. lia.
    + apply double_until_ge in Hsz. lia.
  - injection Hsz as <-. lia.
Qed.

Lemma write_reserve_small len s :
  len <= 2 ^ 31 -> is_Some (write_reserve len s).
Proof.
  intros Hlen. unfold write_reserve.
  destruct (Z.of_nat (length (message_buf_ s)) <? len) eqn:E; [|by eexists].
  destruct (Z.of_nat (length (message_buf_ s)) =? 0) eqn:E0; [by eexists|].
  destruct (double_until_small 32 (Z.of_nat (length (message_buf_ s))) len)
    as [size' ->]; [lia|done| |by eexists].
  change (2 ^ Z.of_nat 32) with (2 ^ 32). lia.
Qed.

Lemma serializationLength_small msg :
  Z.of_nat (length (serialized msg)) < 2 ^ 32 ->
  serializationLength msg = Z.of_nat (length (serialized msg)).
Proof. intros. unfold serializationLength, wrap32. apply Z.mod_small. lia. Qed.

Lemma sticky_nofail (f : Bag -> Bag) s :
  (w_fail (write_stream_ s) = true -> w_fail (write_stream_ (f s)) = true) ->
  w_fail (write_stream_ (f s)) = false -> w_fail (write_stream_ s) = false.
Proof. destruct (w_fail (write_stream_ s)); [|done]. intros H. by rewrite H. Qed.

(** What [write_emit] leaves when the data went through. *)
Lemma write_emit_effect topic_name stamp msg needs info s s' :
  good s ->
  Z.of_nat (length (serialized msg)) < 2 ^ 32 ->
  write_emit topic_name stamp msg needs info s = Ok s' ->
  w_fail (write_stream_ s') = false ->
  exists buf,
    s' = appended
           (record_bytes (data_header topic_name info stamp (latching_of msg)
                            (callerid_of msg)) (serialized msg))
           (set_message_buf buf
              ((if needs
                then appended (header_bytes (def_header topic_name info) 0)
                else id)
                 (set_topic_indexes
                    (<[topic_name := (topic_indexes_ s !!! topic_name) ++
                                     [mkIndexEntry stamp (record_pos_ s)]]>
                       (topic_indexes_ s)) s))).
Proof.
  intros Hg Hlen Hw Hok. unfold write_emit in Hw.
  set (s2 := set_topic_indexes _ s) in *.
  assert (good s2) as Hg2 by done.
  set (s3 := if needs then writeHeader _ 0 s2 else s2) in *.
  destruct (write_reserve (serializationLength msg) s3) as [buf|] eqn:Hres; [|done].
  apply write_reserve_ge in Hres as Hge.
  rewrite serializationLength_small in * by done.
  destruct (length buf <? length (serialized msg))%nat eqn:Hlt; [done|].
  apply Nat.ltb_ge in Hlt. injection Hw as <-.
  cbn [message_buf_ set_message_buf] in *.
  exists (store buf (serialized msg)).
  assert (take (Z.to_nat (Z.of_nat (length (serialized msg)))) (store buf (serialized msg))
          = serialized msg) as Htake
    by (unfold store; rewrite Nat2Z.id; apply take_app_length).
  unfold writeRecord in *. rewrite Htake in *.
  pose proof (nofail_before _ _ Hok) as Hok1.
  assert (w_fail (write_stream_ s3) = false) as Hok3.
  { revert Hok1. apply (sticky_nofail (fun s => writeHeader _ _ (set_message_buf _ s))).
    intros. by apply writeHeader_sticky. }
  assert (wrap32 (Z.of_nat (length (serialized msg))) = Z.of_nat (length (serialized msg)))
    as Hwrap by (apply Z.mod_small; lia).
  assert (s3 = (if needs then appended (header_bytes (def_header topic_name info) 0) else id) s2
          /\ good s3) as [Hs3 Hg3].
  { subst s3. destruct needs; [|done].
    rewrite (writeHeader_appended _ _ _ Hg2 Hok3). split; [done|]. by apply good_appended. }
  rewrite <- Hs3.
  assert (good (set_message_buf (store buf (serialized msg)) s3)) as Hg4 by done.
  rewrite (writeHeader_appended _ _ _ Hg4 Hok1) in Hok |- *.
  rewrite writefil_appended by (done || by apply good_appended).
  rewrite appended_app. unfold record_bytes. by rewrite Hwrap.
Qed.

Lemma write_emit_returns topic_name stamp msg needs info s :
  Z.of_nat (length (serialized msg)) <= 2 ^ 31 ->
  exists s', write_emit topic_name stamp msg needs info s = Ok s'.
Proof.
  intros Hlen. unfold write_emit.
  set (s3 := if needs then _ else _).
  destruct (write_reserve_small (serializationLength msg) s3) as [buf Hbuf].
  { rewrite serializationLength_small; lia. }
  rewrite Hbuf. apply write_reserve_ge in Hbuf.
  rewrite serializationLength_small in Hbuf by lia.
  destruct (length buf <? length (serialized msg))%nat eqn:Hlt; [|by eexists].
  apply Nat.ltb_lt in Hlt. lia.
Qed.

Lemma checkDisk_frame stat s :
  write_stream_ (checkDisk stat s).2 = write_stream_ s /\
  record_pos_ (checkDisk stat s).2 = record_pos_ s /\
  file_header_pos_ (checkDisk stat s).2 = file_header_pos_ s /\
  index_data_pos_ (checkDisk stat s).2 = index_data_pos_ s /\
  topics_recorded_ (checkDisk stat s).2 = topics_recorded_ s /\
  topic_indexes_ (checkDisk stat s).2 = topic_indexes_ s.
Proof. unfold checkDisk. repeat case_match; done. Qed.

Lemma write_check_disk_frame env s :
  write_stream_ (write_check_disk env s) = write_stream_ s /\
  record_pos_ (write_check_disk env s) = record_pos_ s /\
  file_header_pos_ (write_check_disk env s) = file_header_pos_ s /\
  index_data_pos_ (write_check_disk env s) = index_data_pos_ s /\
  topics_recorded_ (write_check_disk env s) = topics_recorded_ s /\
  topic_indexes_ (write_check_disk env s) = topic_indexes_ s.
Proof.
  unfold write_check_disk. case_match; [|done].
  destruct (checkDisk_frame (statvfs env)
              (set_check_disk_next (check_disk_next_ s + seconds 20) s))
    as (-> & -> & -> & -> & -> & ->). done.
Qed.

Lemma write_check_disk_enabled env s :
  disk_ok env -> writing_enabled_ s = true ->
  writing_enabled_ (write_check_disk env s) = true.
Proof.
  unfold disk_ok, write_check_disk, checkDisk. intros Hd He.
  destruct (check_disk_next_ s <? now env); [|done].
  destruct (statvfs env) as [[b a]|]; [|done].
  destruct (wrap64 (b * a) <? 1073741824) eqn:E; [lia|].
  by destruct (wrap64 (b * a) <? 5368709120).
Qed.

(** The index of [topic_name] after an accepted [write]. *)
Definition index_after (m : gmap string MsgInfo) (idx : gmap string (list IndexEntry))
    (topic_name : string) (e : IndexEntry) : gmap string (list IndexEntry) :=
  <[topic_name := match m !! topic_name with
                  | Some _ => idx !!! topic_name
                  | None => []
                  end ++ [e]]> idx.

(** An accepted [write] whose bytes went through: the maps, the stream and
    the positions it leaves. *)
Lemma write_effect env topic_name stamp msg s s' :
  good s ->
  writing_enabled_ s = true ->
  Z.of_nat (length (serialized msg)) < 2 ^ 32 ->
  write env topic_name stamp msg s = Ok s' ->
  w_fail (write_stream_ s') = false ->
  topics_recorded_ s' = admitted topic_name msg (topics_recorded_ s) /\
  topic_indexes_ s' =
    index_after (topics_recorded_ s) (topic_indexes_ s) topic_name
      (mkIndexEntry stamp (record_pos_ s)) /\
  write_stream_ s' =
    write_stream_ (appended (write_bytes (topics_recorded_ s) topic_name stamp msg) s) /\
  record_pos_ s' =
    record_pos_ (appended (write_bytes (topics_recorded_ s) topic_name stamp msg) s) /\
  file_header_pos_ s' = file_header_pos_ s /\
  index_data_pos_ s' = index_data_pos_ s /\
  good s' /\
  (disk_ok env -> writing_enabled_ s' = true).
Proof.
  intros Hg Hen Hlen Hw Hok. unfold write in Hw. rewrite Hen in Hw. cbn [negb] in Hw.
  unfold admitted, index_after, write_bytes, admitted, write_admit in *.
  destruct (topics_recorded_ s !! topic_name) as [info|] eqn:Hrec.
  - destruct (write_check_disk_frame env s) as (Hws & Hrp & Hfh & Hid & Htr & Hti).
    apply write_emit_effect in Hw as [buf ->]; [|by repeat split; rewrite Hws; apply Hg|done..].
    bag_simpl. rewrite Hfh, Hid, Htr, Hti, Hrp, Hws.
    repeat split; try done. intros. by apply write_check_disk_enabled.
  - set (s1 := set_topic_indexes _ _) in *.
    destruct (write_check_disk_frame env s1) as (Hws & Hrp & Hfh & Hid & Htr & Hti).
    apply write_emit_effect in Hw as [buf ->]; [|by repeat split; rewrite Hws; apply Hg|done..].
    bag_simpl. rewrite Hfh, Hid, Htr, Hti, Hrp, Hws. subst s1. bag_simpl.
    rewrite lookup_total_insert_eq, insert_insert_eq.
    rewrite <- !app_assoc, length_app.
    repeat split; try done.
    + by rewrite !length_app.
    + unfold wrap64, info_of. rewrite Zplus_mod_idemp_l, length_app. f_equal. lia.
    + intros. by apply write_check_disk_enabled.
Qed.

Lemma write_emit_sticky topic_name stamp msg needs info s s' :
  w_fail (write_stream_ s) = true ->
  write_emit topic_name stamp msg needs info s = Ok s' ->
  w_fail (write_stream_ s') = true.
Proof.
  intros Hf Hw. unfold write_emit in Hw. repeat case_match; try done.
  all: injection Hw as <-; apply writeRecord_sticky; bag_simpl;
    try apply writeHeader_sticky; done.
Qed.

Lemma write_sticky env topic_name stamp msg s s' :
  w_fail (write_stream_ s) = true ->
  write env topic_name stamp msg s = Ok s' ->
  w_fail (write_stream_ s') = true.
Proof.
  intros Hf Hw. unfold write in Hw.
  destruct (writing_enabled_ s); cbn [negb] in Hw.
  - unfold write_admit in Hw.
    destruct (topics_recorded_ s !! topic_name).
    + eapply write_emit_sticky; [|done].
      by destruct (write_check_disk_frame env s) as (-> & _).
    + eapply write_emit_sticky; [|done].
      by destruct (write_check_disk_frame env
                     (set_topic_indexes (<[topic_name:=[]]> (topic_indexes_ s))
                        (set_topics_recorded
                           (<[topic_name:=mkMsgInfo topic_name (__getMessageDefinition msg)
                                            (__getMD5Sum msg) (__getDataType msg)]>
                              (topics_recorded_ s)) s))) as (-> & _).
  - injection Hw as <-. by case_match.
Qed.

Lemma write_all_sticky l s s' :
  w_fail (write_stream_ s) = true -> write_all l s = Ok s' ->
  w_fail (write_stream_ s') = true.
Proof.
  revert s. induction l as [|[[[env t] stamp] msg] l IH]; intros s Hf Hw; cbn in Hw.
  - by injection Hw as <-.
  - destruct (write env t stamp msg s) as [s1| | | |] eqn:E; try done.
    cbn in Hw. eapply IH; [|done]. by eapply write_sticky.
Qed.

(** ** Writing in the middle of the file *)

Lemma overwrite_overwrite data p b1 b2 :
  overwrite (overwrite data p b1) (p + length b1) b2 = overwrite data p (b1 ++ b2).
Proof.
  unfold overwrite.
  rewrite (app_assoc (resize p zero data) b1).
  rewrite resize_app by (rewrite length_app, length_resize; lia).
  rewrite drop_app_ge by (rewrite length_app, length_resize; lia).
  rewrite length_app, length_resize, drop_drop, length_app.
  rewrite <- !app_assoc. do 3 f_equal. f_equal. lia.
Qed.

Lemma overwrite_middle pre old post new :
  length new = length old ->
  overwrite (pre ++ old ++ post) (length pre) new = pre ++ new ++ post.
Proof.
  intros Hlen. unfold overwrite.
  rewrite resize_app by done.
  rewrite drop_app_ge by lia.
  replace (length pre + length new - length pre)%nat with (length old) by lia.
  by rewrite drop_app_length.
Qed.

Lemma writefil_put bs s :
  w_fail (write_stream_ (writefil bs s)) = false -> writefil bs s = put bs s.
Proof.
  intros Hok. unfold writefil in *. cbn in Hok.
  by destruct (ofstream_write_ok _ _ Hok) as (_ & _ & ->).
Qed.

Lemma put_put b1 b2 s : put b2 (put b1 s) = put (b1 ++ b2) s.
Proof.
  unfold put. bag_simpl. rewrite overwrite_overwrite. unfold wrap64.
  rewrite !length_app, Nat2Z.inj_add, Zplus_mod_idemp_l, Z.add_assoc, Nat.add_assoc.
  done.
Qed.

Lemma put_at_end bs s :
  w_pos (write_stream_ s) = length (w_data (write_stream_ s)) -> put bs s = appended bs s.
Proof.
  intros Hp. unfold put, appended. by rewrite Hp, overwrite_end, length_app.
Qed.

(** The file header has thirty bytes of fields whatever the index position. *)
Lemma file_header_items ip :
  map_items (file_header_fields ip) =
  [(INDEX_POS_FIELD_NAME, string_of_uint 8 ip); (OP_FIELD_NAME, string_of_uint 1 OP_FILE_HEADER)].
Proof.
  unfold file_header_fields.
  generalize (string_of_uint 8 ip). intros v. vm_compute. reflexivity.
Qed.

Lemma encode_field_length k v :
  length (encode_field (k, v)) = (String.length k + 5 + String.length v)%nat.
Proof.
  unfold encode_field. cbn [fst snd].
  rewrite length_app. cbn [length]. rewrite length_app, le_bytes_length.
  rewrite <- !string_length_list. lia.
Qed.

Lemma Header_write_file_header ip :
  (Header_write (file_header_fields ip)).2 = 30 /\
  length (Header_write (file_header_fields ip)).1 = 30%nat.
Proof.
  unfold Header_write. cbn [fst snd]. rewrite file_header_items.
  unfold encode_fields. cbn [map concat].
  rewrite !length_app, !encode_field_length, !string_of_uint_length. done.
Qed.

Lemma file_header_bytes_length ip : length (file_header_bytes ip) = 4104%nat.
Proof.
  unfold file_header_bytes, header_bytes.
  destruct (Header_write_file_header ip) as [-> Hl].
  rewrite !length_app, !le_bytes_length, repeat_length, length_take, Hl. done.
Qed.

Lemma writeFileHeader_sticky s :
  w_fail (write_stream_ s) = true -> w_fail (write_stream_ (writeFileHeader s)) = true.
Proof.
  intros H. unfold writeFileHeader.
  destruct (Header_write _) as [buf hl]. 
  case_match; unfold writefil_string; repeat apply writefil_sticky; done.
Qed.

Lemma writeFileHeader_put s :
  w_fail (write_stream_ (writeFileHeader s)) = false ->
  writeFileHeader s =
    put (file_header_bytes (index_data_pos_ s)) (set_file_header_pos (record_pos_ s) s).
Proof.
  unfold writeFileHeader, file_header_bytes, header_bytes.
  bag_simpl.
  change (<[INDEX_POS_FIELD_NAME:=string_of_uint 8 (index_data_pos_ s)]>
            (<[OP_FIELD_NAME:=string_of_uint 1 OP_FILE_HEADER]> ∅))
    with (file_header_fields (index_data_pos_ s)).
  destruct (Header_write_file_header (index_data_pos_ s)) as [Hl _].
  destruct (Header_write (file_header_fields (index_data_pos_ s))) as [buf hl].
  cbn [snd fst] in *. subst hl.
  change (30 <? FILE_HEADER_LENGTH) with true. cbv iota.
  change (FILE_HEADER_LENGTH - 30) with 4066. change (0 <? 4066) with true. cbv iota.
  unfold writefil_string. rewrite list_ascii_of_string_of_list_ascii.
  set (s0 := set_file_header_pos _ s).
  intros Hok.
  pose proof (nofail_before _ _ Hok) as Hok3.
  pose proof (nofail_before _ _ Hok3) as Hok2.
  pose proof (nofail_before _ _ Hok2) as Hok1.
  rewrite (writefil_put _ s0 Hok1) in Hok2, Hok3, Hok |- *.
  rewrite (writefil_put _ _ Hok2) in Hok3, Hok |- *.
  rewrite (writefil_put _ _ Hok3) in Hok |- *.
  rewrite (writefil_put _ _ Hok).
  rewrite !put_put. by rewrite <- !app_assoc.
Qed.

(** ** A run of writes *)

Lemma placed_bytes m off t stamp msg :
  p_bytes (mkPlaced off (bool_decide (m !! t = None)) (admitted t msg m !!! t) t stamp msg)
  = write_bytes m t stamp msg.
Proof.
  unfold p_bytes, write_bytes. cbn [p_new p_info p_topic p_stamp p_msg].
  by destruct (m !! t).
Qed.

Lemma placed_index m idx off t stamp msg :
  add_placed idx
    (mkPlaced off (bool_decide (m !! t = None)) (admitted t msg m !!! t) t stamp msg)
  = index_after m idx t (mkIndexEntry stamp (wrap64 (Z.of_nat off))).
Proof.
  unfold add_placed, index_after, p_entry. cbn [p_new p_info p_topic p_stamp p_msg p_off].
  by destruct (m !! t).
Qed.

Lemma write_all_effect l s s' :
  good s ->
  writing_enabled_ s = true ->
  record_pos_ s = wrap64 (Z.of_nat (length (w_data (write_stream_ s)))) ->
  Forall wf_write l ->
  write_all l s = Ok s' ->
  w_fail (write_stream_ s') = false ->
  topics_recorded_ s' = admit_all (topics_recorded_ s) l /\
  topic_indexes_ s' =
    foldl add_placed (topic_indexes_ s)
      (placement (topics_recorded_ s) (length (w_data (write_stream_ s))) l) /\
  w_data (write_stream_ s') =
    w_data (write_stream_ s) ++
    concat (map p_bytes
              (placement (topics_recorded_ s) (length (w_data (write_stream_ s))) l)) /\
  w_name (write_stream_ s') = w_name (write_stream_ s) /\
  good s' /\
  writing_enabled_ s' = true /\
  record_pos_ s' = wrap64 (Z.of_nat (length (w_data (write_stream_ s')))) /\
  file_header_pos_ s' = file_header_pos_ s /\
  index_data_pos_ s' = index_data_pos_ s.
Proof.
  revert s. induction l as [|[[[env t] stamp] msg] l IH]; intros s Hg Hen Hrp Hwf Hw Hok.
  - cbn in Hw. injection Hw as <-. cbn. rewrite app_nil_r.
    repeat split; try done; apply Hg.
  - cbn [write_all] in Hw.
    destruct (write env t stamp msg s) as [s1| | | |] eqn:E; try done.
    cbn in Hw.
    assert (w_fail (write_stream_ s1) = false) as Hok1.
    { destruct (w_fail (write_stream_ s1)) eqn:F; [|done].
      by rewrite (write_all_sticky _ _ _ F Hw) in Hok. }
    apply Forall_cons in Hwf as [[Hdisk Hlen] Hwf]. cbn [fst snd] in Hdisk, Hlen.
    destruct (write_effect _ _ _ _ _ _ Hg Hen Hlen E Hok1)
      as (Htr & Hti & Hws & Hrp1 & Hfh & Hid & Hg1 & Hen1).
    assert (w_data (write_stream_ s1)
            = w_data (write_stream_ s) ++ write_bytes (topics_recorded_ s) t stamp msg)
      as Hdata by (by rewrite Hws).
    assert (record_pos_ s1 = wrap64 (Z.of_nat (length (w_data (write_stream_ s1))))) as Hrp1'.
    { rewrite Hrp1, Hdata. bag_simpl. rewrite Hrp. unfold wrap64.
      rewrite Zplus_mod_idemp_l, length_app. f_equal. lia. }
    destruct (IH s1 Hg1 (Hen1 Hdisk) Hrp1' Hwf Hw Hok)
      as (Htr' & Hti' & Hws' & Hn' & Hg' & Hen' & Hrp' & Hfh' & Hid').
    cbn [placement admit_all foldl map concat fst snd].
    rewrite placed_bytes, placed_index.
    split_and!.
    + by rewrite Htr', Htr.
    + by rewrite Hti', Htr, Hti, Hdata, length_app, Hrp.
    + by rewrite Hws', Htr, Hdata, length_app, <- app_assoc.
    + by rewrite Hn', Hws.
    + exact Hg'.
    + done.
    + done.
    + by rewrite Hfh'.
    + by rewrite Hid'.
Qed.

(** ** Opening for writing *)

Lemma writeFileHeader_mode s : mode_ (writeFileHeader s) = mode_ s.
Proof. unfold writeFileHeader. destruct (Header_write _). by case_match. Qed.

Lemma checkDisk_mode stat s : mode_ (checkDisk stat s).2 = mode_ s.
Proof. unfold checkDisk. by repeat case_match. Qed.

Lemma open_write_unfold env name u fs :
  open env name Write (Bag_new u) fs =
  if bool_decide (name ∈ fs_denied fs) then
    Ok (false,
        set_write_stream (w_setfail ofstream_init)
          (set_file_name name (set_mode Write (Bag_new u))), fs)
  else
    Ok (true, writeFileHeader (writeVersion (open_write_start env name u fs)),
        mkFS (<[name := []]> (fs_files fs)) (fs_denied fs) (fs_limit fs)).
Proof.
  unfold open.
  destruct (modes_of_set name Write (Bag_new u)) as (-> & -> & ->).
  change (negb (Z.land Write Read =? 0)) with false.
  change (negb (Z.land Write Write =? 0)) with true.
  change (negb (Z.land Write Append =? 0)) with false.
  cbn [andb negb assert mbind outcome_bind].
  unfold ofstream_open.
  change (w_open (write_stream_ (set_file_name name (set_mode Write (Bag_new u)))))
    with false. cbv iota.
  destruct (bool_decide (name ∈ fs_denied fs)); [reflexivity|].
  cbn [w_fail write_stream_ set_write_stream]. cbv iota.
  fold (open_write_start env name u fs).
  cbn [mbind outcome_bind].
  assert (readMode (writeFileHeader (writeVersion (open_write_start env name u fs))) = false)
    as ->; [|reflexivity].
  unfold readMode. rewrite writeFileHeader_mode.
  unfold writeVersion, writefil_string, writefil, open_write_start.
  cbn [mode_ set_record_pos set_write_stream]. by rewrite checkDisk_mode.
Qed.

Lemma open_write_start_fields env name u fs :
  write_stream_ (open_write_start env name u fs)
    = mkOfstream true name [] 0 false (fs_limit fs) /\
  record_pos_ (open_write_start env name u fs) = 0 /\
  index_data_pos_ (open_write_start env name u fs) = 0 /\
  topics_recorded_ (open_write_start env name u fs) = ∅ /\
  topic_indexes_ (open_write_start env name u fs) = ∅ /\
  (disk_ok env -> writing_enabled_ (open_write_start env name u fs) = true).
Proof.
  unfold open_write_start.
  set (s0 := set_record_pos 0 _).
  destruct (checkDisk_frame (statvfs env) s0) as (-> & -> & _ & -> & -> & ->).
  split_and!; try reflexivity.
  intros Hd. unfold checkDisk, disk_ok in *.
  destruct (statvfs env) as [[bs av]|]; [|reflexivity].
  destruct (wrap64 (bs * av) <? 1073741824) eqn:E; [lia|].
  destruct (wrap64 (bs * av) <? 5368709120); reflexivity.
Qed.

Lemma open_write_effect env name u fs b s fs' :
  open env name Write (Bag_new u) fs = Ok (b, s, fs') ->
  w_fail (write_stream_ s) = false ->
  b = true /\ good s /\ w_name (write_stream_ s) = name /\
  w_data (write_stream_ s) = version_bytes ++ file_header_bytes 0 /\
  record_pos_ s = 4120 /\ file_header_pos_ s = 16 /\ index_data_pos_ s = 0 /\
  topics_recorded_ s = ∅ /\ topic_indexes_ s = ∅ /\
  (disk_ok env -> writing_enabled_ s = true).
Proof.
  rewrite open_write_unfold.
  destruct (bool_decide (name ∈ fs_denied fs)).
  { intros [= <- <- <-]. cbn. discriminate. }
  destruct (open_write_start_fields env name u fs) as (Hws & Hrp & Hid & Htr & Hti & Hen).
  generalize dependent (open_write_start env name u fs). intros s1 Hws Hrp Hid Htr Hti Hen.
  remember (writeFileHeader (writeVersion s1)) as sfin eqn:Hfin.
  intros [= <- <- <-] Hok. rewrite Hfin in Hok |- *. clear Hfin.
  pose proof (sticky_nofail writeFileHeader _ (writeFileHeader_sticky _) Hok) as Hok1.
  rewrite (writeFileHeader_put _ Hok). clear Hok.
  unfold writeVersion, writefil_string in Hok1 |- *.
  rewrite (writefil_put _ _ Hok1). clear Hok1.
  fold version_bytes.
  pose proof (file_header_bytes_length 0) as Hfhl.
  assert (length version_bytes = 16%nat) as Hvl by reflexivity.
  unfold put. bag_simpl. rewrite Hws, Hrp, Hid. bag_simpl.
  generalize dependent (file_header_bytes 0). intros fhb Hfhl.
  generalize dependent version_bytes. intros vb Hvl.
  unfold overwrite. cbn [resize length Nat.add replicate app].
  rewrite ?drop_nil, ?app_nil_r.
  rewrite resize_all, (drop_ge vb) by lia.
  rewrite !app_nil_r, Hfhl, Hvl.
  change (wrap64 (0 + Z.of_nat 16)) with 16.
  change (wrap64 (16 + Z.of_nat 4104)) with 4120.
  split_and!; try reflexivity; try assumption.
  unfold good. bag_simpl. split_and!; try reflexivity.
  rewrite length_app, Hfhl, Hvl. reflexivity.
Qed.

(** ** The trailing index and [close] *)

Lemma put_entry_sticky s e :
  w_fail (write_stream_ s) = true -> w_fail (write_stream_ (put_entry s e)) = true.
Proof. intros. unfold put_entry. by do 3 apply writefil_sticky. Qed.

Lemma put_entry_appended s e :
  good s -> w_fail (write_stream_ (put_entry s e)) = false ->
  put_entry s e = appended (entry_bytes e) s.
Proof.
  intros Hg Hok. unfold put_entry, entry_bytes in *.
  pose proof (nofail_before _ _ Hok) as Hok2.
  pose proof (nofail_before _ _ Hok2) as Hok1.
  rewrite (writefil_appended _ s Hg Hok1) in Hok2, Hok |- *.
  rewrite (writefil_appended _ _ (good_appended _ _ Hg) Hok2) in Hok |- *.
  rewrite writefil_appended by auto using good_appended.
  by rewrite !appended_app.
Qed.

Lemma foldl_sticky {A} (f : Bag -> A -> Bag) l s :
  (forall s a, w_fail (write_stream_ s) = true -> w_fail (write_stream_ (f s a)) = true) ->
  w_fail (write_stream_ s) = true -> w_fail (write_stream_ (foldl f s l)) = true.
Proof.
  intros Hf. revert s. induction l as [|a l IH]; intros s Hs; cbn; [done|].
  apply IH. by apply Hf.
Qed.

Lemma foldl_nofail {A} (f : Bag -> A -> Bag) l s :
  (forall s a, w_fail (write_stream_ s) = true -> w_fail (write_stream_ (f s a)) = true) ->
  w_fail (write_stream_ (foldl f s l)) = false -> w_fail (write_stream_ s) = false.
Proof.
  intros Hf Hok. destruct (w_fail (write_stream_ s)) eqn:E; [|done].
  by rewrite (foldl_sticky f l s Hf E) in Hok.
Qed.

Lemma entries_appended es b s :
  good s ->
  w_fail (write_stream_ (foldl put_entry (appended b s) es)) = false ->
  foldl put_entry (appended b s) es = appended (b ++ concat (map entry_bytes es)) s.
Proof.
  revert b. induction es as [|e es IH]; intros b Hg Hok; cbn [foldl map concat] in *.
  - by rewrite app_nil_r.
  - pose proof (foldl_nofail _ _ _ put_entry_sticky Hok) as Hok1.
    rewrite (put_entry_appended _ _ (good_appended _ _ Hg) Hok1) in Hok |- *.
    rewrite appended_app in Hok |- *. rewrite (IH _ Hg Hok). by rewrite <- app_assoc.
Qed.

Lemma writeIndex_topic_sticky s item :
  w_fail (write_stream_ s) = true ->
  w_fail (write_stream_ (writeIndex_topic s item)) = true.
Proof.
  intros Hf. unfold writeIndex_topic. destruct item as [t es].
  apply (foldl_sticky put_entry); [apply put_entry_sticky|].
  apply writeHeader_sticky. by case_match.
Qed.

Lemma writeIndex_topic_appended s item info :
  good s ->
  topics_recorded_ s !! item.1 = Some info ->
  w_fail (write_stream_ (writeIndex_topic s item)) = false ->
  writeIndex_topic s item = appended (index_block (topics_recorded_ s) item) s.
Proof.
  intros Hg Hinfo Hok. unfold writeIndex_topic, index_block in *.
  destruct item as [t es]. cbn [fst snd] in *. rewrite Hinfo in *.
  fold put_entry in Hok |- *.
  set (h := <[COUNT_FIELD_NAME:=_]> _) in *.
  change h with (index_header t (datatype (topics_recorded_ s !!! t))
                   (wrap32 (Z.of_nat (length es)))) in *.
  clearbody h. clear h.
  pose proof (foldl_nofail _ _ _ put_entry_sticky Hok) as Hok1.
  rewrite (writeHeader_appended _ _ _ Hg Hok1) in Hok |- *.
  by rewrite (entries_appended _ _ _ Hg Hok).
Qed.

Lemma index_fold_appended items b s :
  good s ->
  (forall item, item ∈ items -> is_Some (topics_recorded_ s !! item.1)) ->
  w_fail (write_stream_ (foldl writeIndex_topic (appended b s) items)) = false ->
  foldl writeIndex_topic (appended b s) items
  = appended (b ++ concat (map (index_block (topics_recorded_ s)) items)) s.
Proof.
  revert b. induction items as [|item items IH]; intros b Hg Hdom Hok;
    cbn [foldl map concat] in *.
  - by rewrite app_nil_r.
  - pose proof (foldl_nofail _ _ _ writeIndex_topic_sticky Hok) as Hok1.
    destruct (Hdom item) as [info Hinfo]; [by left|].
    rewrite (writeIndex_topic_appended _ _ info (good_appended _ _ Hg) Hinfo Hok1)
      in Hok |- *.
    rewrite appended_app in Hok |- *.
    rewrite (IH _ Hg) by (done || intros; apply Hdom; by right).
    by rewrite <- app_assoc.
Qed.

Lemma seek_sticky p s :
  w_fail (write_stream_ s) = true -> w_fail (write_stream_ (seek p s)) = true.
Proof. intros H. unfold seek, ofstream_seekp. bag_simpl. by rewrite H. Qed.

Lemma map_items_elem {V} (m : gmap string V) k v :
  (k, v) ∈ map_items m <-> m !! k = Some v.
Proof.
  unfold map_items. rewrite merge_sort_Permutation. apply elem_of_map_to_list.
Qed.

(** [writeIndex] on a bag whose file has the file-header record [old]
    between [pre] and [post]. *)
Lemma writeIndex_effect s pre old post :
  good s ->
  0 <= record_pos_ s < 2 ^ 64 ->
  w_data (write_stream_ s) = pre ++ old ++ post ->
  file_header_pos_ s = Z.of_nat (length pre) ->
  length old = 4104%nat ->
  Z.of_nat (length pre) < 2 ^ 63 ->
  (forall t, is_Some (topic_indexes_ s !! t) -> is_Some (topics_recorded_ s !! t)) ->
  w_fail (write_stream_ (writeIndex s)) = false ->
  w_data (write_stream_ (writeIndex s))
    = pre ++ file_header_bytes (record_pos_ s) ++ post ++ index_bytes s /\
  w_open (write_stream_ (writeIndex s)) = true /\
  w_name (write_stream_ (writeIndex s)) = w_name (write_stream_ s) /\
  index_data_pos_ (writeIndex s) = record_pos_ s.
Proof.
  intros Hg Hrange Hdata Hfh Hold Hpre Hdom Hok. unfold writeIndex in *.
  set (s1 := set_index_data_pos (record_pos_ s) s) in *.
  assert (good s1) as Hg1 by done.
  assert (s1 = appended [] s1) as Hnil by (symmetry; by apply appended_nil).
  pose proof (sticky_nofail writeFileHeader _ (writeFileHeader_sticky _) Hok) as Hok3.
  pose proof (sticky_nofail (seek _) _ (seek_sticky _ _) Hok3) as Hok2.
  change (topic_indexes_ s1) with (topic_indexes_ s) in *.
  rewrite Hnil in Hok2, Hok3, Hok |- *.
  rewrite (index_fold_appended _ _ _ Hg1) in Hok3, Hok |- *; [| |done| |done| |done].
  2,3,4: intros [t es] Hin%map_items_elem; apply Hdom; by eexists.
  change ([] ++ concat (map (index_block (topics_recorded_ s1)) (map_items (topic_indexes_ s))))
    with (index_bytes s) in *.
  generalize dependent (index_bytes s). intros idx Hok Hok3.
  rewrite (writeFileHeader_put _ Hok). clear Hok.
  unfold seek, appended, put, ofstream_seekp in *. bag_simpl. subst s1. bag_simpl.
  rewrite Hfh in *. 
  assert ((2 ^ 63 <=? Z.of_nat (length pre)) = false) as -> by lia.
  bag_simpl. rewrite Nat2Z.id, Hdata.
  split_and!; try reflexivity.
  rewrite <- !app_assoc.
  rewrite (overwrite_middle pre old (post ++ idx)); [done|].
  by rewrite file_header_bytes_length.
Qed.

Lemma close_unfold s fs :
  w_open (write_stream_ s) = true ->
  w_open (write_stream_ (writeIndex s)) = true ->
  close s fs =
    (set_write_stream
       (mkOfstream false (w_name (write_stream_ (writeIndex s))) [] 0
          (w_fail (write_stream_ (writeIndex s))) (w_limit (write_stream_ (writeIndex s))))
       (set_topic_indexes ∅ (set_topics_recorded ∅ (writeIndex s))),
     mkFS (<[w_name (write_stream_ (writeIndex s)) := w_data (write_stream_ (writeIndex s))]>
             (fs_files fs)) (fs_denied fs) (fs_limit fs)).
Proof.
  intros Ho Ho2. unfold close. rewrite Ho. cbn [negb].
  generalize dependent (writeIndex s). intros s2 Ho2.
  unfold ofstream_close. bag_simpl. by rewrite Ho2.
Qed.

Lemma writeIndex_open s :
  w_open (write_stream_ s) = true -> w_open (write_stream_ (writeIndex s)) = true.
Proof.
  intros Ho.
  assert (forall bs s, w_open (write_stream_ s) = true ->
                       w_open (write_stream_ (writefil bs s)) = true) as Hwf.
  { intros bs s0 H. unfold writefil, ofstream_write. bag_simpl. rewrite H.
    cbn [negb orb]. by destruct (w_fail (write_stream_ s0)). }
  assert (forall f d s, w_open (write_stream_ s) = true ->
                        w_open (write_stream_ (writeHeader f d s)) = true) as Hwh.
  { intros f d s0 H. unfold writeHeader. destruct (Header_write f). by do 3 apply Hwf. }
  assert (forall l s, w_open (write_stream_ s) = true ->
                      w_open (write_stream_ (foldl put_entry s l)) = true) as Hes.
  { induction l as [|e l IH]; intros s0 H; cbn [foldl]; [done|].
    apply IH. unfold put_entry. by do 3 apply Hwf. }
  assert (forall l s, w_open (write_stream_ s) = true ->
                      w_open (write_stream_ (foldl writeIndex_topic s l)) = true) as Hts.
  { induction l as [|[t es] l IH]; intros s0 H; cbn [foldl]; [done|].
    apply IH. unfold writeIndex_topic. fold put_entry. apply Hes, Hwh. by case_match. }
  unfold writeIndex, writeFileHeader.
  destruct (Header_write _) as [buf hl].
  assert (forall X, w_open (write_stream_ X) = true ->
            w_open (write_stream_
              (if 0 <? (if hl <? FILE_HEADER_LENGTH then FILE_HEADER_LENGTH - hl else 0)
               then writefil_string
                      (string_of_list_ascii
                         (repeat " "%char
                            (Z.to_nat (if hl <? FILE_HEADER_LENGTH
                                       then FILE_HEADER_LENGTH - hl else 0)))) X
               else X)) = true) as Hpad.
  { intros X HX. case_match; [|done]. unfold writefil_string. by apply Hwf. }
  apply Hpad. do 3 apply Hwf. bag_simpl.
  unfold seek, ofstream_seekp. bag_simpl.
  set (s2 := foldl writeIndex_topic _ _).
  assert (w_open (write_stream_ s2) = true) as Ho2 by (subst s2; by apply Hts).
  destruct (w_fail (write_stream_ s2)); [done|]. rewrite Ho2. cbn [negb orb].
  destruct (2 ^ 63 <=? file_header_pos_ s2); [exact Ho2|reflexivity].
Qed.

Lemma close_sticky s fs :
  w_open (write_stream_ s) = true ->
  w_fail (write_stream_ (close s fs).1) = false ->
  w_fail (write_stream_ (writeIndex s)) = false.
Proof.
  intros Ho. rewrite (close_unfold s fs Ho (writeIndex_open s Ho)).
  generalize (writeIndex s). intros s2. cbn [fst]. bag_simpl. done.
Qed.

(** [close] on a written bag: the file it leaves. *)
Lemma close_effect s fs body :
  writer_layout s body ->
  w_fail (write_stream_ (close s fs).1) = false ->
  (close s fs).2 =
    mkFS (<[w_name (write_stream_ s) :=
              version_bytes ++ file_header_bytes (record_pos_ s) ++ body ++ index_bytes s]>
            (fs_files fs)) (fs_denied fs) (fs_limit fs) /\
  w_open (write_stream_ (close s fs).1) = false /\
  topics_recorded_ (close s fs).1 = ∅ /\
  topic_indexes_ (close s fs).1 = ∅.
Proof.
  intros (Hg & Hdata & Hrp & Hfh & Hdom) Hok.
  pose proof (close_sticky s fs (proj1 Hg) Hok) as Hok1.
  destruct (writeIndex_effect s version_bytes (file_header_bytes 0) body)
    as (Hd & Ho & Hn & _); try assumption.
  { rewrite Hrp. apply Z.mod_pos_bound. lia. }
  { apply file_header_bytes_length. }
  { reflexivity. }
  rewrite (close_unfold s fs (proj1 Hg) Ho). cbn [fst snd]. bag_simpl.
  rewrite Hd, Hn. by split_and!.
Qed.

(** ** Properties of the writer *)

(** X1: on a stream that has failed, [writefil] writes nothing and leaves
    the stream failed, but still adds the length to [record_pos_]: from then
    on the shadow position runs ahead of the file. *)
Theorem writefil_on_failed_stream bs s :
  w_fail (write_stream_ s) = true ->
  w_data (write_stream_ (writefil bs s)) = w_data (write_stream_ s) /\
  w_fail (write_stream_ (writefil bs s)) = true /\
  record_pos_ (writefil bs s) = wrap64 (record_pos_ s + Z.of_nat (length bs)).
Proof.
  intros Hf. unfold writefil, ofstream_write. bag_simpl.
  rewrite Hf, orb_true_r. by split_and!.
Qed.

Lemma writefil_on_failed_stream_witness :
  w_data (write_stream_ (writefil ["a"%char] (seek (2 ^ 63) writer0)))
    = w_data (write_stream_ (seek (2 ^ 63) writer0)) /\
  w_fail (write_stream_ (writefil ["a"%char] (seek (2 ^ 63) writer0))) = true /\
  record_pos_ (writefil ["a"%char] (seek (2 ^ 63) writer0))
    = wrap64 (record_pos_ (seek (2 ^ 63) writer0) + Z.of_nat (length ["a"%char])).
Proof.
  apply (writefil_on_failed_stream ["a"%char] (seek (2 ^ 63) writer0)).
  vm_compute. reflexivity.
Defined.



(** ** The order of timestamps *)

Lemma Time_lt_spec a b :
  Time_lt a b = true <-> sec a < sec b \/ (sec a = sec b /\ nsec a < nsec b).
Proof.
  unfold Time_lt. rewrite orb_true_iff, andb_true_iff, !Z.ltb_lt, Z.eqb_eq. tauto.
Qed.

Lemma Time_le_spec a b :
  Time_le a b = true <-> sec a < sec b \/ (sec a = sec b /\ nsec a <= nsec b).
Proof.
  unfold Time_le. rewrite negb_true_iff, <- not_true_iff_false, Time_lt_spec. lia.
Qed.

Lemma Time_lt_false a b : Time_lt a b = false <-> Time_le b a = true.
Proof. unfold Time_le. by rewrite negb_true_iff. Qed.

Lemma Time_le_refl a : Time_le a a = true.
Proof. apply Time_le_spec. lia. Qed.

Lemma Time_le_trans a b c : Time_le a b = true -> Time_le b c = true -> Time_le a c = true.
Proof. rewrite !Time_le_spec. lia. Qed.

Lemma Time_lt_le_trans a b c : Time_lt a b = true -> Time_le b c = true -> Time_lt a c = true.
Proof. rewrite !Time_le_spec, !Time_lt_spec. lia. Qed.

Lemma Time_le_lt_trans a b c : Time_le a b = true -> Time_lt b c = true -> Time_lt a c = true.
Proof. rewrite !Time_le_spec, !Time_lt_spec. lia. Qed.

Lemma Time_lt_irrefl a : Time_lt a a = false.
Proof. apply not_true_iff_false. rewrite Time_lt_spec. lia. Qed.

Lemma Time_le_total a b : Time_le a b = true \/ Time_le b a = true.
Proof. rewrite !Time_le_spec. lia. Qed.

(** ** The binary searches *)

Lemma lower_bound_search fuel v first len val :
  lower_bound_from fuel v first len val
  = search (fun e => Time_lt (time e) val) fuel v first len.
Proof.
  revert first len. induction fuel as [|fuel IH]; intros first len;
    cbn [lower_bound_from search]; [reflexivity|].
  destruct (len =? 0)%nat; [reflexivity|].
  destruct (v !! (first + len / 2)%nat) as [e|]; [|reflexivity].
  destruct (Time_lt (time e) val); apply IH.
Qed.

Lemma upper_bound_search fuel v first len val :
  upper_bound_from fuel v first len val
  = search (fun e => negb (Time_lt val (time e))) fuel v first len.
Proof.
  revert first len. induction fuel as [|fuel IH]; intros first len;
    cbn [upper_bound_from search]; [reflexivity|].
  destruct (len =? 0)%nat; [reflexivity|].
  destruct (v !! (first + len / 2)%nat) as [e|]; [|reflexivity].
  destruct (Time_lt val (time e)); cbn [negb]; apply IH.
Qed.

Lemma search_spec P fuel v first len :
  prefix_test P v ->
  (len <= fuel)%nat -> (first + len <= length v)%nat ->
  (forall i e, v !! i = Some e -> (i < first)%nat -> P e = true) ->
  (forall i e, v !! i = Some e -> (first + len <= i)%nat -> P e = false) ->
  prefix_end P v (search P fuel v first len).
Proof.
  intros Hmono. revert first len.
  induction fuel as [|fuel IH]; intros first len Hfuel Hlen Hlo Hhi.
  - assert (len = 0)%nat as -> by lia. cbn. split_and!; [lia|done|].
    intros i e Hi Hge. apply (Hhi i e Hi). lia.
  - cbn [search]. destruct (len =? 0)%nat eqn:E.
    + apply Nat.eqb_eq in E as ->. split_and!; [lia|done|].
      intros i e Hi Hge. apply (Hhi i e Hi). lia.
    + apply Nat.eqb_neq in E.
      assert (len / 2 < len)%nat as Hhalf by (apply Nat.div_lt; lia).
      destruct (v !! (first + len / 2)%nat) as [e|] eqn:Hmid.
      2:{ apply lookup_ge_None in Hmid. lia. }
      destruct (P e) eqn:HP.
      * apply IH; [lia|lia| |].
        -- intros i a Hi Hlt. apply (Hmono i (first + len / 2)%nat a e); [lia|done..].
        -- intros i a Hi Hge. apply (Hhi i a Hi). lia.
      * apply IH; [lia|lia|done|].
        intros i a Hi Hge.
        destruct (P a) eqn:HPa; [|done].
        rewrite (Hmono (first + len / 2)%nat i e a) in HP; [done|lia|done..].
Qed.

Lemma lower_bound_spec v val :
  time_sorted v ->
  prefix_end (fun e => Time_lt (time e) val) v (lower_bound v val).
Proof.
  intros Hs. unfold lower_bound. rewrite lower_bound_search.
  apply search_spec; [|lia|lia|intros; lia|].
  - intros i j a b Hij Ha Hb Hlt. eapply Time_le_lt_trans; [|exact Hlt]. by eapply Hs.
  - intros i e Hi Hge. apply lookup_lt_Some in Hi. lia.
Qed.

Lemma upper_bound_spec v val :
  time_sorted v ->
  prefix_end (fun e => negb (Time_lt val (time e))) v (upper_bound v val).
Proof.
  intros Hs. unfold upper_bound. rewrite upper_bound_search.
  apply search_spec; [|lia|lia|intros; lia|].
  - intros i j a b Hij Ha Hb Hlt. apply negb_true_iff in Hlt. apply negb_true_iff.
    apply Time_lt_false. apply Time_lt_false in Hlt.
    eapply Time_le_trans; [|exact Hlt]. by eapply Hs.
  - intros i e Hi Hge. apply lookup_lt_Some in Hi. lia.
Qed.

Lemma bounds_ordered v lo hi :
  time_sorted v -> Time_le lo hi = true ->
  (lower_bound v lo <= upper_bound v hi)%nat.
Proof.
  intros Hs Hle.
  destruct (lower_bound_spec v lo Hs) as (Hl1 & Hl2 & Hl3).
  destruct (upper_bound_spec v hi Hs) as (Hu1 & Hu2 & Hu3).
  destruct (decide (lower_bound v lo <= upper_bound v hi)%nat) as [|Hgt]; [done|].
  destruct (lookup_lt_is_Some_2 v (upper_bound v hi)) as [e He]; [lia|].
  pose proof (Hl2 _ _ He ltac:(lia)) as H1.
  pose proof (Hu3 _ _ He ltac:(lia)) as H2.
  apply negb_false_iff in H2.
  pose proof (Time_lt_le_trans _ _ _ H1 Hle) as H3.
  rewrite Time_lt_spec in *. lia.
Qed.
